(** * Client-side model of the collaborative whiteboard

    Shallow embedding of [static/js/socket.js]: the [SocketManager] class
    (outgoing event stamping) and the [Whiteboard] class (local history
    stacks, cursor throttling, reconciliation of remote events).

    Conventions.
    - JavaScript values that travel in payloads are [jsval]; finite numbers
      are rationals (every finite double is one, and [Math.min]/[Math.max]
      return one of their arguments unchanged), [Date.now()] is an integer
      number of milliseconds.  Where a shape tool computes with pointer
      coordinates, every result is rounded as JavaScript rounds it
      ([round_double]).
    - JavaScript arrays are lists in array order: [push] appends at the end,
      [pop] takes from the end.
    - fabric objects are mutable and compared by reference: the state carries
      a heap from references to property maps, and the canvas and both
      history stacks hold references.
    - Rendering ([renderAll], [requestRenderAll]), logging and the DOM have
      no effect on the modelled state and are left out.
    - Every listener is a function on the state; which listeners are
      registered at a given time ([setMode], [canvas.on], [canvas.off]) is
      not part of the state: a run names the listener that fires. *)

From Stdlib Require Import ZArith QArith Qminmax Qabs Lia.
From stdpp Require Import base option strings list gmap.

Set Warnings "-register-all".

(** ** JavaScript values *)

Inductive jsval : Type :=
| JUndefined
| JNull
| JBool (b : bool)
| JNum (q : Q)
| JStr (s : string)
| JObject (fields : gmap string jsval).

(** A JavaScript object used as a record of named properties. *)
Abbreviation jsobject := (gmap string jsval) (only parsing).

(** ToBoolean. *)
Definition truthy (v : jsval) : bool :=
  match v with
  | JUndefined | JNull => false
  | JBool b => b
  | JNum q => negb (Qeq_bool q 0)
  | JStr s => negb (String.eqb s "")
  | JObject _ => true
  end.

(** [a || b]. *)
Definition js_or (a b : jsval) : jsval := if truthy a then a else b.

(** [a === b].  Objects are equal only when they are the same reference; the
    comparisons of the source have a freshly received payload field on one
    side, which is never the reference held on the other side. *)
Definition strict_eq (a b : jsval) : bool :=
  match a, b with
  | JUndefined, JUndefined => true
  | JNull, JNull => true
  | JBool x, JBool y => Bool.eqb x y
  | JNum x, JNum y => Qeq_bool x y
  | JStr x, JStr y => String.eqb x y
  | _, _ => false
  end.

(** ** JavaScript arrays *)

Definition push {A} (l : list A) (x : A) : list A := l ++ [x].

(** [pop] on an empty array returns [undefined] and leaves it empty; every
    call in the source is guarded by [length > 0]. *)
Definition pop {A} (l : list A) : option (A * list A) :=
  match last l with
  | Some x => Some (x, removelast l)
  | None => None
  end.

(** [indexOf] followed by [splice(index, 1)]: drops the first occurrence. *)
Fixpoint remove_first (r : nat) (l : list nat) : list nat :=
  match l with
  | [] => []
  | x :: l' => if Nat.eqb x r then l' else x :: remove_first r l'
  end.

(** ** SocketManager *)

Module SocketManager.

(** [sent] is the log of what has been handed to the socket.io client
    ([this.socket.emit]), oldest first. *)
Record t : Type := mk {
  userName : jsval;
  lastRoom : jsval;
  sent : list (string * jsobject)
}.

(** constructor *)
Definition new : t :=
  {| userName := JStr ""; lastRoom := JNull; sent := [] |}.

Definition raw_emit (event : string) (data : jsobject) (sm : t) : t :=
  {| userName := userName sm; lastRoom := lastRoom sm;
     sent := push (sent sm) (event, data) |}.

(** the ['connect'] listener: re-join after a reconnect *)
Definition on_connect (sm : t) : t :=
  if truthy (lastRoom sm)
  then raw_emit "join" {[ "room" := lastRoom sm ]} sm
  else sm.

Definition setUserName (name : jsval) (sm : t) : t :=
  {| userName := name; lastRoom := lastRoom sm; sent := sent sm |}.

Definition joinRoom (roomId : jsval) (sm : t) : t :=
  raw_emit "join"
    (<[ "userName" := userName sm ]> {[ "room" := roomId ]})
    {| userName := userName sm; lastRoom := roomId; sent := sent sm |}.

(** [{...data, userName: this.userName || 'Anonymous'}] *)
Definition dataWithUser (sm : t) (data : jsobject) : jsobject :=
  <[ "userName" := js_or (userName sm) (JStr "Anonymous") ]> data.

Definition emit (event : string) (data : jsobject) (sm : t) : t :=
  raw_emit event (dataWithUser sm data) sm.

(** The calls a page makes on its manager. *)
Inductive call : Type :=
  | CallJoinRoom (roomId : jsval)
  | CallEmit (event : string) (data : jsobject)
  | CallSetUserName (name : jsval).

Definition is_join (c : call) : bool :=
  match c with
  | CallJoinRoom _ => true
  | _ => false
  end.

Definition do_call (sm : t) (c : call) : t :=
  match c with
  | CallJoinRoom roomId => joinRoom roomId sm
  | CallEmit event data => emit event data sm
  | CallSetUserName name => setUserName name sm
  end.

Definition do_calls (calls : list call) (sm : t) : t :=
  foldl do_call sm calls.

End SocketManager.

(** ** The fabric canvas, as far as the whiteboard uses it

    [fabric.Canvas] is an external library object.  The model keeps the list
    of objects on the canvas (bottom first), its dimensions, the drawing-mode
    flag, the free-drawing brush and the viewport (zoom and absolute pan). *)

Abbreviation ref := nat (only parsing).

Module Canvas.

Record t : Type := mk {
  objects : list ref;
  width : Q;
  height : Q;
  isDrawingMode : bool;
  brushColor : jsval;
  brushWidth : jsval;
  zoom : Q;
  pan : Q * Q
}.

Definition set_objects (l : list ref) (c : t) : t :=
  {| objects := l; width := width c; height := height c;
     isDrawingMode := isDrawingMode c; brushColor := brushColor c;
     brushWidth := brushWidth c; zoom := zoom c; pan := pan c |}.

(** [canvas.add(obj)] *)
Definition add (o : ref) (c : t) : t := set_objects (push (objects c) o) c.

(** [canvas.remove(obj)]: nothing happens when the object is not there. *)
Definition remove (o : ref) (c : t) : t :=
  set_objects (remove_first o (objects c)) c.

(** [obj.bringToFront()] *)
Definition bringToFront (o : ref) (c : t) : t :=
  if bool_decide (o ∈ objects c)
  then set_objects (push (remove_first o (objects c)) o) c
  else c.

(** [canvas.clear()]: every object leaves the canvas. *)
Definition clear (c : t) : t := set_objects [] c.

Definition setWidth (w : Q) (c : t) : t :=
  {| objects := objects c; width := w; height := height c;
     isDrawingMode := isDrawingMode c; brushColor := brushColor c;
     brushWidth := brushWidth c; zoom := zoom c; pan := pan c |}.

Definition setHeight (h : Q) (c : t) : t :=
  {| objects := objects c; width := width c; height := h;
     isDrawingMode := isDrawingMode c; brushColor := brushColor c;
     brushWidth := brushWidth c; zoom := zoom c; pan := pan c |}.

Definition setBrush (color size : jsval) (c : t) : t :=
  {| objects := objects c; width := width c; height := height c;
     isDrawingMode := isDrawingMode c; brushColor := color;
     brushWidth := size; zoom := zoom c; pan := pan c |}.

(** [canvas.setZoom(z)] directly followed by [canvas.absolutePan(p)], the
    only way the source moves the viewport. *)
Definition setViewport (z : Q) (p : Q * Q) (c : t) : t :=
  {| objects := objects c; width := width c; height := height c;
     isDrawingMode := isDrawingMode c; brushColor := brushColor c;
     brushWidth := brushWidth c; zoom := z; pan := p |}.

End Canvas.

(** What the whiteboard needs from outside its own file: fabric's
    serialisation of an object ([obj.toJSON()]); fabric's deserialisation
    ([fabric.util.enlivenObjects([path], callback)]: [enliven path] is
    [Some objects] when the callback is called with [objects], and [None]
    when the call throws instead); [Math.sqrt]; and the rounding of
    JavaScript's arithmetic, whose every result is the double nearest to
    the exact one. *)
Class Externals : Type := {
  toJSON : jsobject -> jsval;
  enliven : jsval -> option (list jsobject);
  Math_sqrt : Q -> Q;
  round_double : Q -> Q
}.

(** The objects handed to the callback of [enlivenObjects]: none when the
    call throws before it calls back. *)
Definition enlivenObjects `{Ext : Externals} (path : jsval)
    : list jsobject :=
  default [] (enliven path).

(** ** Whiteboard *)

Module Whiteboard.

(** The local variables [rect, origX, origY] of [initRectMode] (and
    [circle, origX, origY] of [initCircleMode]) that its three listeners
    share; [shape = None] is the still undefined variable. *)
Record closure : Type := mkClosure {
  shape : option ref;
  orig : Q * Q
}.

Record t : Type := mk {
  canvas : Canvas.t;
  socket : SocketManager.t;
  roomId : string;
  history : list ref;
  redoStack : list ref;
  isDrawing : bool;
  viewportState : Q * (Q * Q);
  lastEmit : Z;
  rectMode : closure;
  circleMode : closure;
  heap : gmap ref jsobject;
  nextRef : ref
}.

Definition set_canvas (f : Canvas.t -> Canvas.t) (wb : t) : t :=
  {| canvas := f (canvas wb); socket := socket wb; roomId := roomId wb;
     history := history wb; redoStack := redoStack wb;
     isDrawing := isDrawing wb; viewportState := viewportState wb;
     lastEmit := lastEmit wb; rectMode := rectMode wb;
     circleMode := circleMode wb; heap := heap wb; nextRef := nextRef wb |}.

Definition set_socket (f : SocketManager.t -> SocketManager.t) (wb : t) : t :=
  {| canvas := canvas wb; socket := f (socket wb); roomId := roomId wb;
     history := history wb; redoStack := redoStack wb;
     isDrawing := isDrawing wb; viewportState := viewportState wb;
     lastEmit := lastEmit wb; rectMode := rectMode wb;
     circleMode := circleMode wb; heap := heap wb; nextRef := nextRef wb |}.

Definition set_history (h : list ref) (wb : t) : t :=
  {| canvas := canvas wb; socket := socket wb; roomId := roomId wb;
     history := h; redoStack := redoStack wb;
     isDrawing := isDrawing wb; viewportState := viewportState wb;
     lastEmit := lastEmit wb; rectMode := rectMode wb;
     circleMode := circleMode wb; heap := heap wb; nextRef := nextRef wb |}.

Definition set_redoStack (r : list ref) (wb : t) : t :=
  {| canvas := canvas wb; socket := socket wb; roomId := roomId wb;
     history := history wb; redoStack := r;
     isDrawing := isDrawing wb; viewportState := viewportState wb;
     lastEmit := lastEmit wb; rectMode := rectMode wb;
     circleMode := circleMode wb; heap := heap wb; nextRef := nextRef wb |}.

Definition set_isDrawing (b : bool) (wb : t) : t :=
  {| canvas := canvas wb; socket := socket wb; roomId := roomId wb;
     history := history wb; redoStack := redoStack wb;
     isDrawing := b; viewportState := viewportState wb;
     lastEmit := lastEmit wb; rectMode := rectMode wb;
     circleMode := circleMode wb; heap := heap wb; nextRef := nextRef wb |}.

Definition set_viewportState (v : Q * (Q * Q)) (wb : t) : t :=
  {| canvas := canvas wb; socket := socket wb; roomId := roomId wb;
     history := history wb; redoStack := redoStack wb;
     isDrawing := isDrawing wb; viewportState := v;
     lastEmit := lastEmit wb; rectMode := rectMode wb;
     circleMode := circleMode wb; heap := heap wb; nextRef := nextRef wb |}.

Definition set_lastEmit (now : Z) (wb : t) : t :=
  {| canvas := canvas wb; socket := socket wb; roomId := roomId wb;
     history := history wb; redoStack := redoStack wb;
     isDrawing := isDrawing wb; viewportState := viewportState wb;
     lastEmit := now; rectMode := rectMode wb;
     circleMode := circleMode wb; heap := heap wb; nextRef := nextRef wb |}.

Definition set_rectMode (c : closure) (wb : t) : t :=
  {| canvas := canvas wb; socket := socket wb; roomId := roomId wb;
     history := history wb; redoStack := redoStack wb;
     isDrawing := isDrawing wb; viewportState := viewportState wb;
     lastEmit := lastEmit wb; rectMode := c;
     circleMode := circleMode wb; heap := heap wb; nextRef := nextRef wb |}.

Definition set_circleMode (c : closure) (wb : t) : t :=
  {| canvas := canvas wb; socket := socket wb; roomId := roomId wb;
     history := history wb; redoStack := redoStack wb;
     isDrawing := isDrawing wb; viewportState := viewportState wb;
     lastEmit := lastEmit wb; rectMode := rectMode wb;
     circleMode := c; heap := heap wb; nextRef := nextRef wb |}.

Definition set_heap (f : gmap ref jsobject -> gmap ref jsobject) (wb : t) : t :=
  {| canvas := canvas wb; socket := socket wb; roomId := roomId wb;
     history := history wb; redoStack := redoStack wb;
     isDrawing := isDrawing wb; viewportState := viewportState wb;
     lastEmit := lastEmit wb; rectMode := rectMode wb;
     circleMode := circleMode wb; heap := f (heap wb); nextRef := nextRef wb |}.

(** [new fabric.X(props)]: a reference never handed out before. *)
Definition new_object (props : jsobject) (wb : t) : ref * t :=
  (nextRef wb,
   {| canvas := canvas wb; socket := socket wb; roomId := roomId wb;
      history := history wb; redoStack := redoStack wb;
      isDrawing := isDrawing wb; viewportState := viewportState wb;
      lastEmit := lastEmit wb; rectMode := rectMode wb;
      circleMode := circleMode wb;
      heap := <[ nextRef wb := props ]> (heap wb);
      nextRef := S (nextRef wb) |}).

(** the properties of the object behind a reference *)
Definition deref (r : ref) (wb : t) : jsobject := default ∅ (heap wb !! r).

(** [obj.set(props)] *)
Definition obj_set (r : ref) (props : jsobject) (wb : t) : t :=
  set_heap (alter (fun o => props ∪ o) r) wb.

(** [this.socket.emit(event, data)]: [this.socket] is the [SocketManager]. *)
Definition emit (event : string) (data : jsobject) (wb : t) : t :=
  set_socket (SocketManager.emit event data) wb.

(** [data.room === this.roomId] *)
Definition same_room (room : jsval) (wb : t) : bool :=
  strict_eq room (JStr (roomId wb)).

Section Handlers.

Context `{Ext : Externals}.

(** *** Cursor throttling: the first ['mouse:move'] listener of
    [setupEventListeners].  [now] is [Date.now()], [pointer] is
    [this.canvas.getPointer(opt.e)]. *)

Definition EMIT_INTERVAL : Z := 50.

Definition on_mouse_move (now : Z) (pointer : Q * Q) (wb : t) : t :=
  if (now - lastEmit wb >? EMIT_INTERVAL)%Z then
    let x := Qmin (Qmax (fst pointer) 0) (Canvas.width (canvas wb)) in
    let y := Qmin (Qmax (snd pointer) 0) (Canvas.height (canvas wb)) in
    set_lastEmit now
      (emit "cursor_move"
         {[ "room" := JStr (roomId wb); "x" := JNum x; "y" := JNum y ]} wb)
  else wb.

(** *** Other participants' cursors *)

Definition cursor_id (userName : string) : string :=
  String.append "cursor_" userName.

Definition is_cursor_of (userName : string) (wb : t) (r : ref) : bool :=
  strict_eq (default JUndefined (deref r wb !! "type")) (JStr "group")
  && strict_eq (default JUndefined (deref r wb !! "id"))
               (JStr (cursor_id userName)).

(** [updateCursor(data)].  Only the outer [cursorGroup] reaches the
    canvas; its children (triangle, label background, label) stay private
    to the group, and of them the group keeps the label's text. *)
Definition updateCursor (userName : string) (x y : jsval) (wb : t) : t :=
  let wb1 :=
    match List.find (is_cursor_of userName wb) (Canvas.objects (canvas wb)) with
    | Some existingCursor => set_canvas (Canvas.remove existingCursor) wb
    | None => wb
    end in
  let '(cursorGroup, wb2) :=
    new_object
      {[ "type" := JStr "group";
         "left" := x; "top" := y;
         "selectable" := JBool false; "evented" := JBool false;
         "id" := JStr (cursor_id userName);
         "zIndex" := JNum 999;
         "text" := js_or (JStr userName) (JStr "Anonymous") ]} wb1 in
  set_canvas (Canvas.bringToFront cursorGroup)
    (set_canvas (Canvas.add cursorGroup) wb2).

Definition on_cursor_update (room : jsval) (userName : string)
    (x y : jsval) (wb : t) : t :=
  if same_room room wb
     && negb (strict_eq (JStr userName) (SocketManager.userName (socket wb)))
  then updateCursor userName x y wb
  else wb.

(** *** Viewport *)

Definition viewport_json (v : Q * (Q * Q)) : jsval :=
  JObject {[ "zoom" := JNum (fst v);
             "pan" := JObject {[ "x" := JNum (fst (snd v));
                                 "y" := JNum (snd (snd v)) ]} ]}.

(** the ['zoom:changed'] listener *)
Definition on_zoom_changed (wb : t) : t :=
  let wb1 :=
    set_viewportState (Canvas.zoom (canvas wb), snd (viewportState wb)) wb in
  emit "viewport_update"
    {[ "room" := JStr (roomId wb1);
       "viewport" := viewport_json (viewportState wb1) ]} wb1.

Definition on_viewport_update (room : jsval) (zoom : Q) (pan : Q * Q)
    (wb : t) : t :=
  if same_room room wb
  then set_canvas (Canvas.setViewport zoom pan)
         (set_viewportState (zoom, pan) wb)
  else wb.

(** *** Local drawing *)

(** the ['path:created'] listener; [path] is [e.path] *)
Definition on_path_created (path : ref) (wb : t) : t :=
  let wb1 := set_history (push (history wb) path) wb in
  emit "draw"
    {[ "room" := JStr (roomId wb1); "path" := toJSON (deref path wb1) ]} wb1.

(** What fabric's free-drawing brush does when a stroke ends: it builds
    the path object, adds it to the canvas and fires ['path:created']. *)
Definition brush_stroke (props : jsobject) (wb : t) : t :=
  let '(path, wb1) := new_object (<[ "type" := JStr "path" ]> props) wb in
  on_path_created path (set_canvas (Canvas.add path) wb1).

(** [initRectMode]: ['mouse:down'] *)
Definition rect_mouse_down (pointer : Q * Q) (wb : t) : t :=
  let wb1 := set_isDrawing true wb in
  let '(origX, origY) := pointer in
  let '(rect, wb2) :=
    new_object
      {[ "type" := JStr "rect";
         "left" := JNum origX; "top" := JNum origY;
         "width" := JNum 0; "height" := JNum 0;
         "fill" := JStr "transparent";
         "stroke" := Canvas.brushColor (canvas wb1);
         "strokeWidth" := Canvas.brushWidth (canvas wb1);
         "selectable" := JBool false ]} wb1 in
  set_canvas (Canvas.add rect)
    (set_rectMode {| shape := Some rect; orig := (origX, origY) |} wb2).

(** [initRectMode]: ['mouse:move'].  With [rect] still undefined the
    listener throws at [rect.set] before it has changed anything. *)
Definition rect_mouse_move (pointer : Q * Q) (wb : t) : t :=
  if negb (isDrawing wb) then wb else
  match shape (rectMode wb) with
  | None => wb
  | Some rect =>
      let '(origX, origY) := orig (rectMode wb) in
      let width := Qabs (round_double (fst pointer - origX)) in
      let height := Qabs (round_double (snd pointer - origY)) in
      obj_set rect
        {[ "width" := JNum width; "height" := JNum height;
           "left" := JNum (Qmin origX (fst pointer));
           "top" := JNum (Qmin origY (snd pointer)) ]} wb
  end.

(** The body shared by the two ['mouse:up'] listeners once their local
    variable holds an object. *)
Definition shape_mouse_up (obj : ref) (wb : t) : t :=
  let wb1 := set_isDrawing false wb in
  let wb2 := set_history (push (history wb1) obj) wb1 in
  let wb3 := set_redoStack [] wb2 in
  emit "draw"
    {[ "room" := JStr (roomId wb3); "path" := toJSON (deref obj wb3) ]} wb3.

(** [initRectMode]: ['mouse:up'].  Before any ['mouse:down'] the variable
    [rect] is undefined and the listener ends in a TypeError at
    [rect.toJSON()]; the stacks hold fabric objects only, so that run has
    no result here. *)
Definition rect_mouse_up (wb : t) : option t :=
  match shape (rectMode wb) with
  | Some rect => Some (shape_mouse_up rect wb)
  | None => None
  end.

(** [initCircleMode]: ['mouse:down'] *)
Definition circle_mouse_down (pointer : Q * Q) (wb : t) : t :=
  let wb1 := set_isDrawing true wb in
  let '(origX, origY) := pointer in
  let '(circle, wb2) :=
    new_object
      {[ "type" := JStr "circle";
         "left" := JNum origX; "top" := JNum origY;
         "radius" := JNum 0;
         "fill" := JStr "transparent";
         "stroke" := Canvas.brushColor (canvas wb1);
         "strokeWidth" := Canvas.brushWidth (canvas wb1);
         "selectable" := JBool false ]} wb1 in
  set_canvas (Canvas.add circle)
    (set_circleMode {| shape := Some circle; orig := (origX, origY) |} wb2).

(** [initCircleMode]: ['mouse:move'] *)
Definition circle_mouse_move (pointer : Q * Q) (wb : t) : t :=
  if negb (isDrawing wb) then wb else
  match shape (circleMode wb) with
  | None => wb
  | Some circle =>
      let '(origX, origY) := orig (circleMode wb) in
      let dx := round_double (fst pointer - origX) in
      let dy := round_double (snd pointer - origY) in
      let sum :=
        round_double (round_double (dx * dx) + round_double (dy * dy)) in
      let radius := round_double (Math_sqrt sum / 2) in
      obj_set circle {[ "radius" := JNum radius ]} wb
  end.

(** [initCircleMode]: ['mouse:up'] *)
Definition circle_mouse_up (wb : t) : option t :=
  match shape (circleMode wb) with
  | Some circle => Some (shape_mouse_up circle wb)
  | None => None
  end.

(** *** Remote drawing events *)

(** The callback given to [enlivenObjects]: every object it receives is
    added to the canvas and pushed on [history]. *)
Definition add_enlivened (wb : t) (props : jsobject) : t :=
  let '(obj, wb1) := new_object props wb in
  let wb2 := set_canvas (Canvas.add obj) wb1 in
  set_history (push (history wb2) obj) wb2.

(** the ['draw_update'] listener; the state is the one at the time the
    callback of [enlivenObjects] runs.  The [try] is inside the listener:
    when [enlivenObjects] throws, the error is logged and nothing else
    happens. *)
Definition on_draw_update (room : jsval) (path : jsval) (wb : t) : t :=
  if same_room room wb
  then foldl add_enlivened wb (enlivenObjects path)
  else wb.

(** the ['undo_update'] listener; [pop] succeeds exactly when
    [this.history.length > 0] *)
Definition on_undo_update (room : jsval) (wb : t) : t :=
  if same_room room wb then
    match pop (history wb) with
    | Some (removed, rest) =>
        set_canvas (Canvas.remove removed)
          (set_redoStack (push (redoStack wb) removed)
             (set_history rest wb))
    | None => wb
    end
  else wb.

(** the ['redo_update'] listener *)
Definition on_redo_update (room : jsval) (wb : t) : t :=
  if same_room room wb then
    match pop (redoStack wb) with
    | Some (restored, rest) =>
        set_canvas (Canvas.add restored)
          (set_history (push (history wb) restored)
             (set_redoStack rest wb))
    | None => wb
    end
  else wb.

(** the ['clear_board'] listener: it takes no parameter and reads no
    field of whatever was delivered *)
Definition on_clear_board (wb : t) : t := set_canvas Canvas.clear wb.

(** *** Hydration and layout *)

(** [path && typeof path === 'object'] *)
Definition is_object (v : jsval) : bool :=
  match v with
  | JObject _ => true
  | _ => false
  end.

(** [loadExistingDrawings], from the point where the response has been
    parsed; [drawings] is [data.drawings].  One [try] encloses the whole
    [for] loop: the first entry on which [enlivenObjects] throws ends the
    loading, and what was loaded before it stays. *)
Fixpoint loadExistingDrawings (drawings : list jsval) (wb : t) : t :=
  match drawings with
  | [] => wb
  | path :: rest =>
      if is_object path then
        match enliven path with
        | Some objects =>
            loadExistingDrawings rest (foldl add_enlivened wb objects)
        | None => wb
        end
      else loadExistingDrawings rest wb
  end.

(** [resizeCanvas]; the arguments are [container.clientWidth] and
    [window.innerHeight] *)
Definition resizeCanvas (containerWidth innerHeight : Q) (wb : t) : t :=
  let containerHeight := (innerHeight * (8 # 10))%Q in
  let newWidth := (containerWidth - 40)%Q in
  let newHeight := containerHeight in
  set_canvas (Canvas.setHeight newHeight)
    (set_canvas (Canvas.setWidth newWidth) wb).

Definition setColor (color : jsval) (wb : t) : t :=
  set_canvas
    (fun c => Canvas.setBrush color (Canvas.brushWidth c) c) wb.

Definition setBrushSize (size : jsval) (wb : t) : t :=
  set_canvas
    (fun c => Canvas.setBrush (Canvas.brushColor c) size c) wb.

(** *** Clear, undo, redo *)

Definition clear (wb : t) : t :=
  emit "clear" {[ "room" := JStr (roomId wb) ]}
    (set_canvas Canvas.clear wb).

Definition undo (wb : t) : t :=
  match pop (history wb) with
  | Some (removed, rest) =>
      let wb1 := set_history rest wb in
      let wb2 := set_redoStack (push (redoStack wb1) removed) wb1 in
      let wb3 := set_canvas (Canvas.remove removed) wb2 in
      emit "undo"
        {[ "room" := JStr (roomId wb3);
           "objectData" := toJSON (deref removed wb3) ]} wb3
  | None => wb
  end.

Definition redo (wb : t) : t :=
  match pop (redoStack wb) with
  | Some (restored, rest) =>
      let wb1 := set_redoStack rest wb in
      let wb2 := set_history (push (history wb1) restored) wb1 in
      let wb3 := set_canvas (Canvas.add restored) wb2 in
      emit "redo"
        {[ "room" := JStr (roomId wb3);
           "objectData" := toJSON (deref restored wb3) ]} wb3
  | None => wb
  end.

(** *** Constructor

    The canvas starts in drawing mode with the 2px black brush of
    [setupTools], is sized by [initResponsiveCanvas], and the socket
    joins the room.  [loadExistingDrawings] completes later, as an
    event of its own. *)
Definition new (socket : SocketManager.t) (roomId : string)
    (innerWidth innerHeight containerWidth : Q) : t :=
  let canvas :=
    {| Canvas.objects := [];
       Canvas.width := (innerWidth * (9 # 10))%Q;
       Canvas.height := (innerHeight * (8 # 10))%Q;
       Canvas.isDrawingMode := true;
       Canvas.brushColor := JStr "#000000";
       Canvas.brushWidth := JNum 2;
       Canvas.zoom := 1;
       Canvas.pan := (0, 0)%Q |} in
  let wb :=
    {| canvas := canvas; socket := socket; roomId := roomId;
       history := []; redoStack := [];
       isDrawing := false; viewportState := (1, (0, 0))%Q;
       lastEmit := 0;
       rectMode := {| shape := None; orig := (0, 0)%Q |};
       circleMode := {| shape := None; orig := (0, 0)%Q |};
       heap := ∅; nextRef := 0 |} in
  set_socket (SocketManager.joinRoom (JStr roomId))
    (resizeCanvas containerWidth innerHeight wb).

(** *** Events and runs *)

(** What the relay delivers.  [room] is the [room] field of the payload
    ([JUndefined] when there is none). *)
Inductive remote_event : Type :=
| cursor_update (room : jsval) (userName : string) (x y : jsval)
| viewport_update (room : jsval) (zoom : Q) (pan : Q * Q)
| draw_update (room : jsval) (path : jsval)
| undo_update (room : jsval)
| redo_update (room : jsval)
| clear_board (room : jsval).

Definition event_room (e : remote_event) : jsval :=
  match e with
  | cursor_update room _ _ _ | viewport_update room _ _
  | draw_update room _ | undo_update room | redo_update room
  | clear_board room => room
  end.

Definition is_clear_board (e : remote_event) : bool :=
  match e with
  | clear_board _ => true
  | _ => false
  end.

Definition receive (e : remote_event) (wb : t) : t :=
  match e with
  | cursor_update room userName x y => on_cursor_update room userName x y wb
  | viewport_update room zoom pan => on_viewport_update room zoom pan wb
  | draw_update room path => on_draw_update room path wb
  | undo_update room => on_undo_update room wb
  | redo_update room => on_redo_update room wb
  | clear_board _ => on_clear_board wb
  end.

(** A completed local draw action.  fabric delivers one ['mouse:up'] per
    ['mouse:down'], so a shape is a press, some moves and a release. *)
Inductive draw_action : Type :=
| FreeDraw (props : jsobject)
| DrawRect (down : Q * Q) (moves : list (Q * Q))
| DrawCircle (down : Q * Q) (moves : list (Q * Q)).

Definition draw (a : draw_action) (wb : t) : option t :=
  match a with
  | FreeDraw props => Some (brush_stroke props wb)
  | DrawRect down moves =>
      rect_mouse_up
        (foldl (fun wb p => rect_mouse_move p wb)
               (rect_mouse_down down wb) moves)
  | DrawCircle down moves =>
      circle_mouse_up
        (foldl (fun wb p => circle_mouse_move p wb)
               (circle_mouse_down down wb) moves)
  end.

(** Everything that can happen to a whiteboard once constructed. *)
Inductive action : Type :=
| Draw (a : draw_action)
| LocalUndo
| LocalRedo
| LocalClear
| MouseMove (now : Z) (pointer : Q * Q)
| Receive (e : remote_event)
| Loaded (drawings : list jsval)
| Resize (containerWidth innerHeight : Q)
| ZoomChanged
| SetColor (color : jsval)
| SetBrushSize (size : jsval)
| SetUserName (name : jsval)
| Reconnect.

Definition step (a : action) (wb : t) : option t :=
  match a with
  | Draw d => draw d wb
  | LocalUndo => Some (undo wb)
  | LocalRedo => Some (redo wb)
  | LocalClear => Some (clear wb)
  | MouseMove now pointer => Some (on_mouse_move now pointer wb)
  | Receive e => Some (receive e wb)
  | Loaded drawings => Some (loadExistingDrawings drawings wb)
  | Resize cw ih => Some (resizeCanvas cw ih wb)
  | ZoomChanged => Some (on_zoom_changed wb)
  | SetColor color => Some (setColor color wb)
  | SetBrushSize size => Some (setBrushSize size wb)
  | SetUserName name =>
      Some (set_socket (SocketManager.setUserName name) wb)
  | Reconnect => Some (set_socket SocketManager.on_connect wb)
  end.

Fixpoint run (acts : list action) (wb : t) : option t :=
  match acts with
  | [] => Some wb
  | a :: acts' =>
      match step a wb with
      | Some wb' => run acts' wb'
      | None => None
      end
  end.

Fixpoint draws (ds : list draw_action) (wb : t) : option t :=
  match ds with
  | [] => Some wb
  | d :: ds' =>
      match draw d wb with
      | Some wb' => draws ds' wb'
      | None => None
      end
  end.

(** [n] calls of [undo] in a row *)
Definition undos (n : nat) (wb : t) : t := Nat.iter n undo wb.

(** *** The two stacks

    No reference occurs twice in [history ++ redoStack] (so none is in both
    stacks), and every reference on a stack has been allocated. *)
Definition stacks_wf (wb : t) : Prop :=
  NoDup (history wb ++ redoStack wb)
  ∧ ∀ o, o ∈ history wb ++ redoStack wb → (o < nextRef wb)%nat.

(** From [wb] to [wb'] the stacks only moved, dropped or gained objects, and
    every object gained was allocated in between. *)
Definition stacks_step (wb wb' : t) : Prop :=
  ∃ n, (nextRef wb + n <= nextRef wb')%nat
       ∧ history wb' ++ redoStack wb'
         ⊆+ (history wb ++ redoStack wb) ++ seq (nextRef wb) n.

(** *** Observing the throttle *)

(** what [wb'] has handed to the socket beyond what [wb] had *)
Definition emitted_since (wb wb' : t) : list (string * jsobject) :=
  drop (length (SocketManager.sent (socket wb)))
       (SocketManager.sent (socket wb')).

Record sample : Type := mkSample {
  sample_time : Z;
  sample_pointer : Q * Q
}.

(** the events a stream of pointer samples makes the first ['mouse:move']
    listener emit, each with the time of its emission *)
Fixpoint throttle_trace (ss : list sample) (wb : t)
    : list (Z * (string * jsobject)) :=
  match ss with
  | [] => []
  | s :: ss' =>
      let wb' := on_mouse_move (sample_time s) (sample_pointer s) wb in
      map (fun e => (sample_time s, e)) (emitted_since wb wb')
      ++ throttle_trace ss' wb'
  end.

(** what the socket log gains when a sample at [pointer] is let through *)
Definition cursor_move_sent (pointer : Q * Q) (wb : t) : string * jsobject :=
  ("cursor_move",
   SocketManager.dataWithUser (socket wb)
     {[ "room" := JStr (roomId wb);
        "x" := JNum (Qmin (Qmax (fst pointer) 0) (Canvas.width (canvas wb)));
        "y" := JNum (Qmin (Qmax (snd pointer) 0) (Canvas.height (canvas wb))) ]}).

(** The samples of a stream that a throttle whose last emission was at
    [last] lets through, written from the contract: a sample passes when it
    is more than [EMIT_INTERVAL] after the last one that passed. *)
Fixpoint let_through (last : Z) (ss : list sample) : list sample :=
  match ss with
  | [] => []
  | s :: ss' =>
      if (sample_time s - last >? EMIT_INTERVAL)%Z
      then s :: let_through (sample_time s) ss'
      else let_through last ss'
  end.

End Handlers.

End Whiteboard.

(** ** A concrete whiteboard to run the model on *)

Module Demo.

(** A stand-in for fabric: an object serialises to its property map and a
    property map deserialises to one object.  No circle is resized below, so
    any function will do for [Math_sqrt]; the coordinates used below are
    whole numbers, on which the arithmetic of doubles is exact. *)
Definition fabric : Externals :=
  {| toJSON := JObject;
     enliven :=
       fun v => match v with JObject o => Some [o] | _ => Some [] end;
     Math_sqrt := fun q => q;
     round_double := fun q => q |}.


Definition ann : SocketManager.t :=
  SocketManager.setUserName (JStr "ann") SocketManager.new.

(** an 800 x 640 canvas in room [r1] *)
Definition board : Whiteboard.t := Whiteboard.new ann "r1" 1000 800 840.

Definition stroke (n : Z) : jsobject := {[ "path" := JNum (inject_Z n) ]}.

(** the board after one free-hand stroke: object 0 on the canvas and on
    [history] *)
Definition drawn : Whiteboard.t :=
  Whiteboard.brush_stroke (Ext := fabric) (stroke 1) board.

(** the same after [undo]: object 0 on [redoStack] *)
Definition undone : Whiteboard.t := Whiteboard.undo (Ext := fabric) drawn.

End Demo.

(** ** Tools and listener registration

    [setMode], [setupTools], [initDrawMode], [initRectMode],
    [initCircleMode] and the constructor's order of calls: which listeners
    the canvas holds for ['mouse:down'], ['mouse:move'] and ['mouse:up'], and
    what a mouse event does when fabric fires it.  fabric's [canvas.on]
    appends a listener to the event's list, [canvas.off(name)] empties the
    list, and [fire] calls the listeners in the order of registration. *)

Module Tools.

(** the keys of [this.modes], the only names the tool buttons pass *)
Inductive tool : Type := DrawTool | RectTool | CircleTool.

Definition tool_name (m : tool) : string :=
  match m with
  | DrawTool => "draw"
  | RectTool => "rect"
  | CircleTool => "circle"
  end.

(** A registered listener.  [Throttle] is the first ['mouse:move'] listener
    of [setupEventListeners]; the others are the listeners of one call of
    [initRectMode] or [initCircleMode], and [c] says which call: the three
    listeners of a call share its local variables. *)
Inductive listener : Type :=
| Throttle
| RectDown (c : nat)
| RectMove (c : nat)
| RectUp (c : nat)
| CircleDown (c : nat)
| CircleMove (c : nat)
| CircleUp (c : nat).

(** [calls] holds the local variables of every [initRectMode] and
    [initCircleMode] call so far, by call number.  While a listener runs,
    the locals of its call stand in the board's [rectMode] (or
    [circleMode]) field, which has no meaning of its own here. *)
Record t : Type := mk {
  board : Whiteboard.t;
  currentMode : string;
  mouse_down : list listener;
  mouse_move : list listener;
  mouse_up : list listener;
  calls : list Whiteboard.closure
}.

Definition set_board (wb : Whiteboard.t) (ui : t) : t :=
  {| board := wb; currentMode := currentMode ui;
     mouse_down := mouse_down ui; mouse_move := mouse_move ui;
     mouse_up := mouse_up ui; calls := calls ui |}.

Definition setDrawingMode (b : bool) (c : Canvas.t) : Canvas.t :=
  {| Canvas.objects := Canvas.objects c; Canvas.width := Canvas.width c;
     Canvas.height := Canvas.height c; Canvas.isDrawingMode := b;
     Canvas.brushColor := Canvas.brushColor c;
     Canvas.brushWidth := Canvas.brushWidth c;
     Canvas.zoom := Canvas.zoom c; Canvas.pan := Canvas.pan c |}.

(** [let rect, origX, origY;] *)
Definition undefined_locals : Whiteboard.closure :=
  {| Whiteboard.shape := None; Whiteboard.orig := (0, 0)%Q |}.

Definition initDrawMode (ui : t) : t :=
  {| board := Whiteboard.set_canvas (setDrawingMode true) (board ui);
     currentMode := currentMode ui;
     mouse_down := []; mouse_move := []; mouse_up := [];
     calls := calls ui |}.

Definition initRectMode (ui : t) : t :=
  let c := length (calls ui) in
  {| board := Whiteboard.set_canvas (setDrawingMode false) (board ui);
     currentMode := currentMode ui;
     mouse_down := mouse_down ui ++ [RectDown c];
     mouse_move := mouse_move ui ++ [RectMove c];
     mouse_up := mouse_up ui ++ [RectUp c];
     calls := calls ui ++ [undefined_locals] |}.

Definition initCircleMode (ui : t) : t :=
  let c := length (calls ui) in
  {| board := Whiteboard.set_canvas (setDrawingMode false) (board ui);
     currentMode := currentMode ui;
     mouse_down := mouse_down ui ++ [CircleDown c];
     mouse_move := mouse_move ui ++ [CircleMove c];
     mouse_up := mouse_up ui ++ [CircleUp c];
     calls := calls ui ++ [undefined_locals] |}.

(** [setMode(mode)] for a key of [this.modes] *)
Definition setMode (mode : tool) (ui : t) : t :=
  let ui1 :=
    {| board := board ui; currentMode := tool_name mode;
       mouse_down := mouse_down ui; mouse_move := mouse_move ui;
       mouse_up := mouse_up ui; calls := calls ui |} in
  match mode with
  | DrawTool => initDrawMode ui1
  | RectTool => initRectMode ui1
  | CircleTool => initCircleMode ui1
  end.

(** the [canvas.on('mouse:move', ...)] at the head of
    [setupEventListeners] *)
Definition setupEventListeners (ui : t) : t :=
  {| board := board ui; currentMode := currentMode ui;
     mouse_down := mouse_down ui;
     mouse_move := mouse_move ui ++ [Throttle];
     mouse_up := mouse_up ui; calls := calls ui |}.

(** The constructor: [setupTools] (which ends in [setMode('draw')]) runs
    before [setupEventListeners]. *)
Definition new (socket : SocketManager.t) (roomId : string)
    (innerWidth innerHeight containerWidth : Q) : t :=
  setupEventListeners
    (setMode DrawTool
       {| board :=
            Whiteboard.new socket roomId innerWidth innerHeight containerWidth;
          currentMode := "draw";
          mouse_down := []; mouse_move := []; mouse_up := [];
          calls := [] |}).

(** a mouse event as a listener sees it: [Date.now()] while it is handled
    and [canvas.getPointer(o.e)] *)
Record mouse_event : Type := mkEvent {
  at_time : Z;
  at_pointer : Q * Q
}.

(** How a listener's run ends: normally, by an exception that leaves the
    state as the listener found it ([Thrown]: fabric's [fire] calls no
    further listener), or by the exception of a ['mouse:up'] listener whose
    local is still undefined, which has pushed [undefined] on [history]
    ([Stuck]: the stacks hold objects only). *)
Inductive ending : Type :=
| Returned (ui : t)
| Thrown (ui : t)
| Stuck.



(** the listeners that do not emit: those of the shape tools for
    ['mouse:move'] *)
Definition is_shape_move (l : listener) : bool :=
  match l with
  | RectMove _ | CircleMove _ => true
  | _ => false
  end.

Section Dispatch.

Context `{Ext : Externals}.

(** run [f] with the locals of rect call [c] *)
Definition in_rect_call (c : nat) (f : Whiteboard.t -> Whiteboard.t)
    (ui : t) : t :=
  let locals := default undefined_locals (calls ui !! c) in
  let wb := f (Whiteboard.set_rectMode locals (board ui)) in
  {| board := wb; currentMode := currentMode ui;
     mouse_down := mouse_down ui; mouse_move := mouse_move ui;
     mouse_up := mouse_up ui;
     calls := <[ c := Whiteboard.rectMode wb ]> (calls ui) |}.

(** run [f] with the locals of circle call [c] *)
Definition in_circle_call (c : nat) (f : Whiteboard.t -> Whiteboard.t)
    (ui : t) : t :=
  let locals := default undefined_locals (calls ui !! c) in
  let wb := f (Whiteboard.set_circleMode locals (board ui)) in
  {| board := wb; currentMode := currentMode ui;
     mouse_down := mouse_down ui; mouse_move := mouse_move ui;
     mouse_up := mouse_up ui;
     calls := <[ c := Whiteboard.circleMode wb ]> (calls ui) |}.

(** the local [rect] (or [circle]) of call [c] *)
Definition local_shape (c : nat) (ui : t) : option nat :=
  Whiteboard.shape (default undefined_locals (calls ui !! c)).

Definition run_listener (l : listener) (e : mouse_event) (ui : t) : ending :=
  match l with
  | Throttle =>
      Returned
        (set_board
           (Whiteboard.on_mouse_move (at_time e) (at_pointer e) (board ui)) ui)
  | RectDown c =>
      Returned (in_rect_call c (Whiteboard.rect_mouse_down (at_pointer e)) ui)
  | RectMove c =>
      if Whiteboard.isDrawing (board ui) && negb (bool_decide (is_Some (local_shape c ui)))
      then Thrown ui
      else Returned
             (in_rect_call c (Whiteboard.rect_mouse_move (at_pointer e)) ui)
  | RectUp c =>
      match local_shape c ui with
      | Some rect =>
          Returned (in_rect_call c (Whiteboard.shape_mouse_up rect) ui)
      | None => Stuck
      end
  | CircleDown c =>
      Returned
        (in_circle_call c (Whiteboard.circle_mouse_down (at_pointer e)) ui)
  | CircleMove c =>
      if Whiteboard.isDrawing (board ui) && negb (bool_decide (is_Some (local_shape c ui)))
      then Thrown ui
      else Returned
             (in_circle_call c (Whiteboard.circle_mouse_move (at_pointer e)) ui)
  | CircleUp c =>
      match local_shape c ui with
      | Some circle =>
          Returned (in_circle_call c (Whiteboard.shape_mouse_up circle) ui)
      | None => Stuck
      end
  end.

(** [canvas.fire(name, e)] over the listeners registered for [name]; [None]
    when a listener ends [Stuck] *)
Fixpoint fire (ls : list listener) (e : mouse_event) (ui : t) : option t :=
  match ls with
  | [] => Some ui
  | l :: ls' =>
      match run_listener l e ui with
      | Returned ui' => fire ls' e ui'
      | Thrown ui' => Some ui'
      | Stuck => None
      end
  end.

(** What the user does.  [StrokeEnd] is the free-drawing brush finishing a
    stroke, which fabric does in drawing mode only. *)
Inductive input : Type :=
| SelectTool (mode : tool)
| MouseDown (e : mouse_event)
| MouseMove (e : mouse_event)
| MouseUp (e : mouse_event)
| StrokeEnd (props : gmap string jsval).

Definition handle (i : input) (ui : t) : option t :=
  match i with
  | SelectTool mode => Some (setMode mode ui)
  | MouseDown e => fire (mouse_down ui) e ui
  | MouseMove e => fire (mouse_move ui) e ui
  | MouseUp e => fire (mouse_up ui) e ui
  | StrokeEnd props =>
      Some (if Canvas.isDrawingMode (Whiteboard.canvas (board ui))
            then set_board (Whiteboard.brush_stroke props (board ui)) ui
            else ui)
  end.

Fixpoint handle_all (inputs : list input) (ui : t) : option t :=
  match inputs with
  | [] => Some ui
  | i :: inputs' =>
      match handle i ui with
      | Some ui' => handle_all inputs' ui'
      | None => None
      end
  end.

End Dispatch.

End Tools.

(** ** Reading the socket log *)

(** An event as the relay wants it: its payload names the room [room], and
    unless it is a [join] it carries a user name that is not empty. *)
Definition addressed_to (room : string) (e : string * gmap string jsval)
    : Prop :=
  snd e !! "room" = Some (JStr room)
  ∧ (fst e ≠ "join" → ∃ v, snd e !! "userName" = Some v ∧ truthy v = true).

(** ** Reading the heap *)

(** In the heap [h] the object behind [r] has the properties of [o0], but
    for those named in [keys]. *)
Definition kept (keys : list string) (o0 : gmap string jsval) (r : nat)
    (h : gmap nat (gmap string jsval)) : Prop :=
  ∃ o, h !! r = Some o ∧ ∀ k, k ∉ keys → o !! k = o0 !! k.

(** ** More scenes on the demo board *)

Module Scenes.

(** the demo board after bob's cursor has been seen at (10, 20) *)
Definition bob_seen : Whiteboard.t :=
  Whiteboard.receive (Ext := Demo.fabric)
    (Whiteboard.cursor_update (JStr "r1") "bob" (JNum 10) (JNum 20))
    Demo.drawn.

(** three pointer samples, the second too early to pass *)
Definition samples : list Whiteboard.sample :=
  [ {| Whiteboard.sample_time := 100; Whiteboard.sample_pointer := (5, 5)%Q |};
    {| Whiteboard.sample_time := 120; Whiteboard.sample_pointer := (6, 6)%Q |};
    {| Whiteboard.sample_time := 151;
       Whiteboard.sample_pointer := (900, -3)%Q |} ].

(** the whiteboard of the demo with its listeners, as constructed *)
Definition studio : Tools.t := Tools.new Demo.ann "r1" 1000 800 840.

Definition at_ms (time : Z) (x y : Q) : Tools.mouse_event :=
  {| Tools.at_time := time; Tools.at_pointer := (x, y) |}.

(** a session after the draw tool was selected again: a rectangle, a
    free-hand stroke, and mouse moves throughout *)
Definition session : list Tools.input :=
  [ Tools.MouseMove (at_ms 100 5 5);
    Tools.SelectTool Tools.RectTool;
    Tools.MouseDown (at_ms 200 10 10);
    Tools.MouseMove (at_ms 300 30 40);
    Tools.MouseUp (at_ms 400 30 40);
    Tools.SelectTool Tools.DrawTool;
    Tools.MouseMove (at_ms 500 50 50);
    Tools.StrokeEnd (Demo.stroke 7) ].

Definition session_end : Tools.t :=
  default studio
    (Tools.handle_all (Ext := Demo.fabric) session
       (Tools.setMode Tools.DrawTool studio)).


(** A stand-in for fabric that is particular about types: an entry
    without a [type] gives no object, an entry of a type it has a class
    for gives one object, and on any other entry [enlivenObjects]
    throws. *)
Definition strict_fabric : Externals :=
  {| toJSON := JObject;
     enliven :=
       fun v =>
         match v with
         | JObject o =>
             match o !! "type" with
             | None => Some []
             | Some (JStr type) =>
                 if existsb (String.eqb type) ["path"; "rect"; "circle"]
                 then Some [o]
                 else None
             | Some _ => None
             end
         | _ => Some []
         end;
     Math_sqrt := fun q => q;
     round_double := fun q => q |}.

Definition stored_rect : jsval := JObject {[ "type" := JStr "rect" ]}.
Definition stored_unknown : jsval := JObject {[ "type" := JStr "nosuch" ]}.
Definition stored_circle : jsval := JObject {[ "type" := JStr "circle" ]}.

(** a manager's calls after it joined: one event, then a new name *)
Definition afterwards : list SocketManager.call :=
  [ SocketManager.CallEmit "draw" ∅;
    SocketManager.CallSetUserName (JStr "bob") ].

End Scenes.

Import Whiteboard.

(** ** Whiteboard: reading a field after an update *)

Ltac wb_simpl :=
  cbn [history redoStack canvas socket roomId isDrawing viewportState
       lastEmit rectMode circleMode heap nextRef shape orig
       set_canvas set_socket set_history set_redoStack set_isDrawing
       set_viewportState set_lastEmit set_rectMode set_circleMode set_heap
       new_object emit obj_set deref fst snd
       Canvas.objects Canvas.width Canvas.height Canvas.add Canvas.remove
       Canvas.clear Canvas.set_objects Canvas.setWidth Canvas.setHeight
       Canvas.setViewport Canvas.setBrush
       SocketManager.sent SocketManager.userName SocketManager.lastRoom
       SocketManager.emit SocketManager.raw_emit] in *.

(** * Properties *)

(** ** Arrays *)

Lemma pop_push {A} (l : list A) (x : A) : pop (push l x) = Some (x, l).
Proof.
  unfold pop, push. now rewrite last_snoc, removelast_last.
Qed.

Lemma pop_nil {A} : pop (@nil A) = None.
Proof. reflexivity. Qed.

Lemma pop_Some {A} (l rest : list A) (x : A) :
  pop l = Some (x, rest) -> l = push rest x.
Proof.
  unfold pop, push. destruct (last l) as [y|] eqn:Hlast; [|discriminate].
  intros [= <- <-]. apply last_Some in Hlast as [l' ->].
  now rewrite removelast_last.
Qed.

Lemma pop_None {A} (l : list A) : pop l = None -> l = [].
Proof.
  unfold pop. destruct (last l) eqn:Hlast; [discriminate|].
  intros _. now apply last_None.
Qed.

Lemma remove_first_not_in (r : ref) (l : list ref) :
  NoDup l -> r ∉ remove_first r l.
Proof.
  induction 1 as [|x l Hx Hl IH]; simpl.
  - apply not_elem_of_nil.
  - destruct (Nat.eqb_spec x r) as [->|Hne]; [exact Hx|].
    rewrite not_elem_of_cons. split; [congruence|exact IH].
Qed.

(** ** SocketManager.emit *)

(** C9.  Whatever [emit] hands to the socket is the caller's data with the
    field [userName] set to [this.userName || 'Anonymous']: the field is
    present and never undefined, it replaces a [userName] the caller
    supplied, every other field is the caller's, a non-empty stored name is
    sent as it is, and an empty, undefined or null stored name is sent as
    ['Anonymous']. *)
Theorem emit_carries_userName
    (sm : SocketManager.t) (event : string) (data : jsobject) :
  let stamped := js_or (SocketManager.userName sm) (JStr "Anonymous") in
  let payload := <[ "userName" := stamped ]> data in
  SocketManager.sent (SocketManager.emit event data sm)
    = SocketManager.sent sm ++ [(event, payload)]
  ∧ payload !! "userName" = Some stamped
  ∧ stamped ≠ JUndefined
  ∧ (∀ k, k ≠ "userName" → payload !! k = data !! k)
  ∧ (∀ s, SocketManager.userName sm = JStr s → s ≠ "" → stamped = JStr s)
  ∧ (SocketManager.userName sm = JStr ""
     ∨ SocketManager.userName sm = JUndefined
     ∨ SocketManager.userName sm = JNull → stamped = JStr "Anonymous").
Proof.
  intros stamped payload. split_and!.
  - reflexivity.
  - subst payload. apply lookup_insert_eq.
  - subst stamped. unfold js_or.
    destruct (truthy (SocketManager.userName sm)) eqn:Htruthy; [|discriminate].
    intros Hundef. rewrite Hundef in Htruthy. discriminate Htruthy.
  - intros k Hk. subst payload. apply lookup_insert_ne. congruence.
  - intros s Hs Hne. subst stamped. unfold js_or. rewrite Hs. simpl.
    destruct (String.eqb_spec s ""); [contradiction|reflexivity].
  - intros [H|[H|H]]; subst stamped; unfold js_or; now rewrite H.
Qed.

(** C9 at a concrete manager: a caller-supplied [userName] is overridden by
    the stored name. *)
Lemma emit_carries_userName_witness :
  SocketManager.sent
    (SocketManager.emit "draw"
       {[ "room" := JStr "r1"; "userName" := JStr "mallory" ]} Demo.ann)
  = [("draw", {[ "room" := JStr "r1"; "userName" := JStr "ann" ]})].
Proof.
  destruct (emit_carries_userName Demo.ann "draw"
              {[ "room" := JStr "r1"; "userName" := JStr "mallory" ]})
    as (Hsent & _).
  rewrite Hsent. vm_compute. reflexivity.
Defined.

Lemma pop_snoc {A} (l : list A) (x : A) : pop (l ++ [x]) = Some (x, l).
Proof. apply pop_push. Qed.

Section WhiteboardFacts.

Context `{Ext : Externals}.

(** *** undo and redo *)

Lemma undo_empty (wb : t) : history wb = [] -> undo wb = wb.
Proof. intros H. unfold undo. now rewrite H. Qed.

Lemma undo_snoc (wb : t) (rest : list ref) (removed : ref) :
  history wb = rest ++ [removed] ->
  undo wb =
    emit "undo"
      {[ "room" := JStr (roomId wb);
         "objectData" := toJSON (deref removed wb) ]}
      (set_canvas (Canvas.remove removed)
         (set_redoStack (push (redoStack wb) removed)
            (set_history rest wb))).
Proof. intros H. unfold undo. now rewrite H, pop_snoc. Qed.

Lemma redo_empty (wb : t) : redoStack wb = [] -> redo wb = wb.
Proof. intros H. unfold redo. now rewrite H. Qed.

Lemma redo_snoc (wb : t) (rest : list ref) (restored : ref) :
  redoStack wb = rest ++ [restored] ->
  redo wb =
    emit "redo"
      {[ "room" := JStr (roomId wb);
         "objectData" := toJSON (deref restored wb) ]}
      (set_canvas (Canvas.add restored)
         (set_history (push (history wb) restored)
            (set_redoStack rest wb))).
Proof. intros H. unfold redo. now rewrite H, pop_snoc. Qed.

(** C5.  [undo] needs a non-empty [history].  With [history] empty it
    returns the whiteboard as it was, so nothing is emitted either.  With
    [removed] on top of [history] it pops it, pushes it on [redoStack],
    removes it from the canvas (it is no longer on a canvas that held it
    once) and emits one [undo] event for the room whose [objectData] is the
    object's serialisation. *)
Theorem undo_requires_history (wb : t) :
  (history wb = [] → undo wb = wb)
  ∧ (∀ rest removed, history wb = rest ++ [removed] →
       history (undo wb) = rest
       ∧ redoStack (undo wb) = redoStack wb ++ [removed]
       ∧ Canvas.objects (canvas (undo wb))
         = remove_first removed (Canvas.objects (canvas wb))
       ∧ (NoDup (Canvas.objects (canvas wb)) →
          removed ∉ Canvas.objects (canvas (undo wb)))
       ∧ SocketManager.sent (socket (undo wb))
         = SocketManager.sent (socket wb)
           ++ [("undo",
                SocketManager.dataWithUser (socket wb)
                  {[ "room" := JStr (roomId wb);
                     "objectData" := toJSON (deref removed wb) ]})]).
Proof.
  split; [apply undo_empty|].
  intros rest removed Hhist. rewrite (undo_snoc wb rest removed Hhist).
  wb_simpl. split_and!; try reflexivity.
  intros Hnodup. now apply remove_first_not_in.
Qed.

(** *** clear *)

(** C10.  [clear] empties the canvas and emits one [clear] event for the
    room; [history] and [redoStack] stay as they were, so an [undo] right
    after it still pops the top of a non-empty [history] and emits its
    [undo] event. *)
Theorem clear_keeps_stacks (wb : t) :
  Canvas.objects (canvas (clear wb)) = []
  ∧ SocketManager.sent (socket (clear wb))
    = SocketManager.sent (socket wb)
      ++ [("clear",
           SocketManager.dataWithUser (socket wb)
             {[ "room" := JStr (roomId wb) ]})]
  ∧ history (clear wb) = history wb
  ∧ redoStack (clear wb) = redoStack wb
  ∧ (∀ rest removed, history wb = rest ++ [removed] →
       history (undo (clear wb)) = rest
       ∧ redoStack (undo (clear wb)) = redoStack wb ++ [removed]
       ∧ SocketManager.sent (socket (undo (clear wb)))
         = SocketManager.sent (socket (clear wb))
           ++ [("undo",
                SocketManager.dataWithUser (socket wb)
                  {[ "room" := JStr (roomId wb);
                     "objectData" := toJSON (deref removed wb) ]})]).
Proof.
  split_and!; try reflexivity.
  intros rest removed Hhist.
  rewrite (undo_snoc (clear wb) rest removed Hhist).
  split_and!; reflexivity.
Qed.

(** *** Remote drawing events *)

Lemma add_enlivened_all (objs : list jsobject) (wb : t) :
  let wb' := foldl add_enlivened wb objs in
  let fresh := seq (nextRef wb) (length objs) in
  history wb' = history wb ++ fresh
  ∧ redoStack wb' = redoStack wb
  ∧ Canvas.objects (canvas wb') = Canvas.objects (canvas wb) ++ fresh
  ∧ nextRef wb' = (nextRef wb + length objs)%nat
  ∧ socket wb' = socket wb
  ∧ rectMode wb' = rectMode wb
  ∧ circleMode wb' = circleMode wb.
Proof.
  revert wb. induction objs as [|obj objs IH]; intros wb; simpl.
  - rewrite !app_nil_r, Nat.add_0_r. split_and!; reflexivity.
  - destruct (IH (add_enlivened wb obj)) as (Hh & Hr & Hc & Hn & Hs & Hrm & Hcm).
    unfold add_enlivened in *. wb_simpl. unfold push in *.
    rewrite Hh, Hr, Hc, Hn, Hs, Hrm, Hcm, <- !app_assoc. simpl.
    split_and!; try reflexivity. lia.
Qed.

Lemma other_room_draw (room path : jsval) (wb : t) :
  same_room room wb = false -> on_draw_update room path wb = wb.
Proof. intros H. unfold on_draw_update. now rewrite H. Qed.

Lemma other_room_undo (room : jsval) (wb : t) :
  same_room room wb = false -> on_undo_update room wb = wb.
Proof. intros H. unfold on_undo_update. now rewrite H. Qed.

Lemma other_room_redo (room : jsval) (wb : t) :
  same_room room wb = false -> on_redo_update room wb = wb.
Proof. intros H. unfold on_redo_update. now rewrite H. Qed.

(** C2, as the code has it.  [clear_board] empties the canvas and never
    touches [history] or [redoStack].  The other three events are applied to
    the canvas and to the stacks when they are for the client's room:
    [draw_update] adds every enlivened object to the canvas and pushes it on
    [history] ([redoStack] is left alone), [undo_update] moves the top of a
    non-empty [history] onto [redoStack] and takes it off the canvas,
    [redo_update] moves the top of a non-empty [redoStack] back onto
    [history] and onto the canvas.  With the stack in question empty, or for
    another room, they change nothing. *)
Theorem remote_events_and_stacks (wb : t) :
  (∀ room,
     history (receive (clear_board room) wb) = history wb
     ∧ redoStack (receive (clear_board room) wb) = redoStack wb
     ∧ Canvas.objects (canvas (receive (clear_board room) wb)) = [])
  ∧ (∀ room path, same_room room wb = true →
       let fresh := seq (nextRef wb) (length (enlivenObjects path)) in
       history (receive (draw_update room path) wb) = history wb ++ fresh
       ∧ redoStack (receive (draw_update room path) wb) = redoStack wb
       ∧ Canvas.objects (canvas (receive (draw_update room path) wb))
         = Canvas.objects (canvas wb) ++ fresh)
  ∧ (∀ room rest removed,
       same_room room wb = true → history wb = rest ++ [removed] →
       history (receive (undo_update room) wb) = rest
       ∧ redoStack (receive (undo_update room) wb) = redoStack wb ++ [removed]
       ∧ Canvas.objects (canvas (receive (undo_update room) wb))
         = remove_first removed (Canvas.objects (canvas wb)))
  ∧ (∀ room rest restored,
       same_room room wb = true → redoStack wb = rest ++ [restored] →
       redoStack (receive (redo_update room) wb) = rest
       ∧ history (receive (redo_update room) wb) = history wb ++ [restored]
       ∧ Canvas.objects (canvas (receive (redo_update room) wb))
         = Canvas.objects (canvas wb) ++ [restored])
  ∧ (∀ room, history wb = [] → receive (undo_update room) wb = wb)
  ∧ (∀ room, redoStack wb = [] → receive (redo_update room) wb = wb)
  ∧ (∀ room path, same_room room wb = false →
       receive (draw_update room path) wb = wb
       ∧ receive (undo_update room) wb = wb
       ∧ receive (redo_update room) wb = wb).
Proof.
  split_and!.
  - intros room. split_and!; reflexivity.
  - intros room path Hroom fresh. simpl. unfold on_draw_update.
    rewrite Hroom.
    destruct (add_enlivened_all (enlivenObjects path) wb)
      as (Hh & Hr & Hc & _).
    split_and!; assumption.
  - intros room rest removed Hroom Hhist. simpl. unfold on_undo_update.
    rewrite Hroom, Hhist, pop_snoc. split_and!; reflexivity.
  - intros room rest restored Hroom Hredo. simpl. unfold on_redo_update.
    rewrite Hroom, Hredo, pop_snoc. split_and!; reflexivity.
  - intros room Hhist. simpl. unfold on_undo_update. rewrite Hhist.
    now destruct (same_room room wb).
  - intros room Hredo. simpl. unfold on_redo_update. rewrite Hredo.
    now destruct (same_room room wb).
  - intros room path Hroom. simpl.
    now rewrite other_room_draw, other_room_undo, other_room_redo.
Qed.

(** C4, as the code has it.  An event for another room is dropped by the
    listeners of [cursor_update], [viewport_update], [draw_update],
    [undo_update] and [redo_update]: the whiteboard stays exactly as it was.
    The listener of [clear_board] looks at no room: it empties the canvas
    whatever was delivered, and leaves [history] and [redoStack] alone. *)
Theorem other_room_events (wb : t) (e : remote_event) :
  same_room (event_room e) wb = false →
  if is_clear_board e
  then Canvas.objects (canvas (receive e wb)) = []
       ∧ history (receive e wb) = history wb
       ∧ redoStack (receive e wb) = redoStack wb
  else receive e wb = wb.
Proof.
  intros Hroom. destruct e as [room u x y|room z p|room path|room|room|room];
    simpl in *.
  - unfold on_cursor_update. now rewrite Hroom.
  - unfold on_viewport_update. now rewrite Hroom.
  - now apply other_room_draw.
  - now apply other_room_undo.
  - now apply other_room_redo.
  - split_and!; reflexivity.
Qed.

(** *** The cursor throttle *)

Lemma drop_own_length {A} (l k : list A) : drop (length l) (l ++ k) = k.
Proof. now rewrite drop_app_length. Qed.

Lemma on_mouse_move_dropped (now : Z) (p : Q * Q) (wb : t) :
  (now - lastEmit wb <= EMIT_INTERVAL)%Z -> on_mouse_move now p wb = wb.
Proof.
  intros H. unfold on_mouse_move.
  destruct (Z.gtb_spec (now - lastEmit wb) EMIT_INTERVAL); [lia|reflexivity].
Qed.

Lemma on_mouse_move_passed (now : Z) (p : Q * Q) (wb : t) :
  (EMIT_INTERVAL < now - lastEmit wb)%Z ->
  emitted_since wb (on_mouse_move now p wb) = [cursor_move_sent p wb]
  ∧ lastEmit (on_mouse_move now p wb) = now.
Proof.
  intros H. unfold on_mouse_move, emitted_since.
  destruct (Z.gtb_spec (now - lastEmit wb) EMIT_INTERVAL); [|lia].
  wb_simpl. unfold push. now rewrite drop_own_length.
Qed.

Lemma on_mouse_move_frame (now : Z) (p : Q * Q) (wb : t) :
  forall q, cursor_move_sent q (on_mouse_move now p wb) = cursor_move_sent q wb.
Proof.
  intros q. unfold on_mouse_move.
  now destruct (now - lastEmit wb >? EMIT_INTERVAL)%Z.
Qed.

Lemma emitted_since_refl (wb : t) : emitted_since wb wb = [].
Proof. unfold emitted_since. apply drop_all. Qed.

(** one step of the trace, by cases on the guard *)
Lemma throttle_trace_cons (s : sample) (ss : list sample) (wb : t) :
  let wb' := on_mouse_move (sample_time s) (sample_pointer s) wb in
  ((sample_time s - lastEmit wb <= EMIT_INTERVAL)%Z
   ∧ wb' = wb
   ∧ throttle_trace (s :: ss) wb = throttle_trace ss wb)
  ∨ ((EMIT_INTERVAL < sample_time s - lastEmit wb)%Z
     ∧ lastEmit wb' = sample_time s
     ∧ throttle_trace (s :: ss) wb
       = (sample_time s, cursor_move_sent (sample_pointer s) wb)
         :: throttle_trace ss wb').
Proof.
  intros wb'.
  destruct (Z.le_gt_cases (sample_time s - lastEmit wb) EMIT_INTERVAL) as [Hle|Hgt].
  - left. pose proof (on_mouse_move_dropped _ (sample_pointer s) _ Hle) as Heq.
    split_and!; [exact Hle|exact Heq|].
    simpl. fold wb'. subst wb'. rewrite Heq, emitted_since_refl. reflexivity.
  - right.
    destruct (on_mouse_move_passed _ (sample_pointer s) _ Hgt) as [Hem Hlast].
    split_and!; [exact Hgt|exact Hlast|].
    simpl. now rewrite Hem.
Qed.

Lemma throttle_trace_later (ss : list sample) (wb : t) (t : Z)
    (e : string * jsobject) :
  (t, e) ∈ throttle_trace ss wb -> (EMIT_INTERVAL < t - lastEmit wb)%Z.
Proof.
  revert wb. induction ss as [|s ss IH]; intros wb Hin.
  - simpl in Hin. now apply elem_of_nil in Hin.
  - destruct (throttle_trace_cons s ss wb) as [(_ & Hwb & Htr)|(Hgt & Hlast & Htr)];
      rewrite Htr in Hin.
    + now apply IH.
    + apply elem_of_cons in Hin as [[= -> _]|Hin]; [exact Hgt|].
      apply IH in Hin. rewrite Hlast in Hin. unfold EMIT_INTERVAL in *. lia.
Qed.

Lemma throttle_trace_spaced (ss : list sample) (wb : t) (i j : nat)
    (ti tj : Z) (ei ej : string * jsobject) :
  (i < j)%nat ->
  throttle_trace ss wb !! i = Some (ti, ei) ->
  throttle_trace ss wb !! j = Some (tj, ej) ->
  (EMIT_INTERVAL < tj - ti)%Z.
Proof.
  revert wb i j. induction ss as [|s ss IH]; intros wb i j Hij Hi Hj.
  - simpl in Hi. discriminate.
  - destruct (throttle_trace_cons s ss wb) as [(_ & Hwb & Htr)|(Hgt & Hlast & Htr)];
      rewrite Htr in Hi, Hj.
    + now apply (IH wb i j).
    + destruct j as [|j]; [lia|]. simpl in Hj.
      destruct i as [|i]; simpl in Hi.
      * injection Hi as <- _.
        apply list_elem_of_lookup_2, throttle_trace_later in Hj.
        now rewrite Hlast in Hj.
      * eapply (IH _ i j); [lia|eassumption..].
Qed.

Lemma throttle_trace_from_samples (ss : list sample) (wb : t) (t : Z)
    (e : string * jsobject) :
  (t, e) ∈ throttle_trace ss wb ->
  ∃ s, s ∈ ss ∧ sample_time s = t ∧ e = cursor_move_sent (sample_pointer s) wb.
Proof.
  revert wb. induction ss as [|s ss IH]; intros wb Hin.
  - simpl in Hin. now apply elem_of_nil in Hin.
  - destruct (throttle_trace_cons s ss wb) as [(_ & Hwb & Htr)|(Hgt & Hlast & Htr)];
      rewrite Htr in Hin.
    + destruct (IH _ Hin) as (s' & Hs' & Ht & He).
      exists s'. split_and!; [now apply list_elem_of_further|assumption..].
    + apply elem_of_cons in Hin as [[= -> ->]|Hin].
      * exists s. split_and!; [apply list_elem_of_here|reflexivity..].
      * destruct (IH _ Hin) as (s' & Hs' & Ht & He).
        exists s'. split_and!; [now apply list_elem_of_further|assumption|].
        now rewrite He, on_mouse_move_frame.
Qed.

Lemma throttle_trace_let_through (ss : list sample) (wb : t) :
  throttle_trace ss wb
  = map (fun s => (sample_time s, cursor_move_sent (sample_pointer s) wb))
        (let_through (lastEmit wb) ss).
Proof.
  revert wb. induction ss as [|s ss IH]; intros wb; [reflexivity|].
  destruct (throttle_trace_cons s ss wb) as [(Hle & Hwb & Htr)|(Hgt & Hlast & Htr)];
    rewrite Htr; cbn [let_through].
  - destruct (Z.gtb_spec (sample_time s - lastEmit wb) EMIT_INTERVAL); [lia|].
    apply IH.
  - destruct (Z.gtb_spec (sample_time s - lastEmit wb) EMIT_INTERVAL); [|lia].
    cbn [map]. f_equal. rewrite IH, Hlast.
    apply map_ext. intros s'. now rewrite on_mouse_move_frame.
Qed.

Lemma let_through_sublist (last : Z) (ss : list sample) :
  let_through last ss `sublist_of` ss.
Proof.
  revert last. induction ss as [|s ss IH]; intros last; cbn [let_through].
  - constructor.
  - destruct (_ >? _)%Z; [apply sublist_skip|apply sublist_cons]; apply IH.
Qed.

Lemma throttle_trace_length (ss : list sample) (wb : t) :
  (length (throttle_trace ss wb) <= length ss)%nat.
Proof.
  revert wb. induction ss as [|s ss IH]; intros wb; [reflexivity|].
  destruct (throttle_trace_cons s ss wb) as [(_ & _ & Htr)|(_ & _ & Htr)];
    rewrite Htr; simpl.
  - specialize (IH wb). lia.
  - specialize (IH (on_mouse_move (sample_time s) (sample_pointer s) wb)). lia.
Qed.

(** C3.  For every stream of timestamped pointer samples: any two emitted
    [cursor_move] events are more than [EMIT_INTERVAL] = 50 ms apart (so
    there is at most one per 50 ms, and none closer than 50 ms to another);
    a sample that comes within the interval is dropped and leaves no trace
    in the state, so nothing is queued; a sample that is let through emits
    exactly one event at its own time; and every emitted event carries the
    (clamped) coordinates of the very sample that triggered it, the most
    recent one at that time: the emitted events are, in order, those of the
    samples [let_through] keeps, a sub-sequence of the stream. *)
Theorem cursor_throttle (ss : list sample) (wb : t) :
  let tr := throttle_trace ss wb in
  (∀ i j ti tj ei ej,
     (i < j)%nat → tr !! i = Some (ti, ei) → tr !! j = Some (tj, ej) →
     (EMIT_INTERVAL < tj - ti)%Z)
  ∧ tr = map (fun s => (sample_time s,
                        cursor_move_sent (sample_pointer s) wb))
             (let_through (lastEmit wb) ss)
  ∧ let_through (lastEmit wb) ss `sublist_of` ss
  ∧ (∀ t e, (t, e) ∈ tr →
       ∃ s, s ∈ ss ∧ sample_time s = t
            ∧ e = cursor_move_sent (sample_pointer s) wb)
  ∧ (length tr <= length ss)%nat
  ∧ (∀ s, (sample_time s - lastEmit wb <= EMIT_INTERVAL)%Z →
       on_mouse_move (sample_time s) (sample_pointer s) wb = wb)
  ∧ (∀ s, (EMIT_INTERVAL < sample_time s - lastEmit wb)%Z →
       emitted_since wb (on_mouse_move (sample_time s) (sample_pointer s) wb)
       = [cursor_move_sent (sample_pointer s) wb]
       ∧ lastEmit (on_mouse_move (sample_time s) (sample_pointer s) wb)
         = sample_time s).
Proof.
  intros tr. split_and!.
  - intros i j ti tj ei ej. apply throttle_trace_spaced.
  - apply throttle_trace_let_through.
  - apply let_through_sublist.
  - intros t e. apply throttle_trace_from_samples.
  - apply throttle_trace_length.
  - intros s. apply on_mouse_move_dropped.
  - intros s. apply on_mouse_move_passed.
Qed.

(** the coordinates in a [cursor_move] payload *)
Lemma cursor_move_sent_xy (p : Q * Q) (wb : t) :
  snd (cursor_move_sent p wb) !! "x"
  = Some (JNum (Qmin (Qmax (fst p) 0) (Canvas.width (canvas wb))))
  ∧ snd (cursor_move_sent p wb) !! "y"
    = Some (JNum (Qmin (Qmax (snd p) 0) (Canvas.height (canvas wb)))).
Proof.
  unfold cursor_move_sent, SocketManager.dataWithUser. simpl snd.
  split.
  - rewrite lookup_insert_ne by discriminate.
    rewrite lookup_insert_ne by discriminate.
    apply lookup_insert_eq.
  - rewrite lookup_insert_ne by discriminate.
    rewrite lookup_insert_ne by discriminate.
    rewrite lookup_insert_ne by discriminate.
    apply lookup_singleton_eq.
Qed.



(** *** Completed draw actions *)

Lemma set_heap_id (wb : t) : set_heap (fun _ => heap wb) wb = wb.
Proof. now destruct wb. Qed.

Lemma rect_mouse_move_heap_only (p : Q * Q) (wb : t) :
  ∃ h, rect_mouse_move p wb = set_heap (fun _ => h) wb.
Proof.
  unfold rect_mouse_move.
  destruct (negb (isDrawing wb)); [eexists; symmetry; apply set_heap_id|].
  destruct (shape (rectMode wb)) as [rect|];
    [|eexists; symmetry; apply set_heap_id].
  destruct (orig (rectMode wb)) as [origX origY].
  eexists. unfold obj_set, set_heap. reflexivity.
Qed.

Lemma circle_mouse_move_heap_only (p : Q * Q) (wb : t) :
  ∃ h, circle_mouse_move p wb = set_heap (fun _ => h) wb.
Proof.
  unfold circle_mouse_move.
  destruct (negb (isDrawing wb)); [eexists; symmetry; apply set_heap_id|].
  destruct (shape (circleMode wb)) as [circle|];
    [|eexists; symmetry; apply set_heap_id].
  destruct (orig (circleMode wb)) as [origX origY].
  eexists. unfold obj_set, set_heap. reflexivity.
Qed.

Lemma moves_heap_only (move : Q * Q -> t -> t) (moves : list (Q * Q)) (wb : t) :
  (∀ p wb, ∃ h, move p wb = set_heap (fun _ => h) wb) ->
  ∃ h, foldl (fun wb p => move p wb) wb moves = set_heap (fun _ => h) wb.
Proof.
  intros Hmove. revert wb. induction moves as [|p moves IH]; intros wb; simpl.
  - eexists. symmetry. apply set_heap_id.
  - destruct (Hmove p wb) as [h1 ->].
    destruct (IH (set_heap (fun _ => h1) wb)) as [h2 ->].
    now exists h2.
Qed.

Lemma draw_pushes (d : draw_action) (wb : t) :
  ∃ wb', draw d wb = Some wb'
         ∧ history wb' = history wb ++ [nextRef wb]
         ∧ nextRef wb' = S (nextRef wb)
         ∧ redoStack wb'
           = match d with FreeDraw _ => redoStack wb | _ => [] end.
Proof.
  destruct d as [props|[x y] moves|[x y] moves]; cbn [draw].
  - eexists. split; [reflexivity|]. split_and!; reflexivity.
  - destruct (moves_heap_only rect_mouse_move moves
                (rect_mouse_down (x, y) wb) rect_mouse_move_heap_only)
      as [h ->].
    eexists. split; [reflexivity|]. split_and!; reflexivity.
  - destruct (moves_heap_only circle_mouse_move moves
                (circle_mouse_down (x, y) wb) circle_mouse_move_heap_only)
      as [h ->].
    eexists. split; [reflexivity|]. split_and!; reflexivity.
Qed.

Lemma draws_push (ds : list draw_action) (wb : t) :
  ∃ wb', draws ds wb = Some wb'
         ∧ history wb' = history wb ++ seq (nextRef wb) (length ds).
Proof.
  revert wb. induction ds as [|d ds IH]; intros wb; simpl.
  - exists wb. now rewrite app_nil_r.
  - destruct (draw_pushes d wb) as (wb1 & -> & Hh & Hn & _).
    destruct (IH wb1) as (wb' & -> & Hh').
    exists wb'. split; [reflexivity|].
    now rewrite Hh', Hh, Hn, <- app_assoc.
Qed.

Lemma history_undo (wb : t) : history (undo wb) = removelast (history wb).
Proof.
  destruct (history wb) as [|x rest _] eqn:Hhist using rev_ind.
  - now rewrite undo_empty, Hhist.
  - rewrite (undo_snoc wb rest x Hhist), removelast_last. reflexivity.
Qed.

Lemma history_undos (n : nat) (wb : t) :
  history (undos n wb) = Nat.iter n (@removelast ref) (history wb).
Proof.
  induction n as [|n IH]; [reflexivity|].
  unfold undos in *. simpl. now rewrite history_undo, IH.
Qed.

Lemma iter_removelast_app {A} (n : nat) (l h : list A) :
  length l = n -> Nat.iter n (@removelast A) (h ++ l) = h.
Proof.
  intros <-. induction l as [|x l IH] using rev_ind; simpl.
  - apply app_nil_r.
  - rewrite length_app, Nat.add_1_r, Nat.iter_succ_r.
    now rewrite app_assoc, removelast_last.
Qed.

(** C6.  Any [k] completed draw actions (free-hand strokes, rectangles,
    circles, in any mix) can be carried out, they make [history] [k] objects
    longer, and [k] calls of [undo] after them leave [history] equal to what
    it was before the first draw. *)
Theorem draws_then_undos (ds : list draw_action) (wb : t) :
  ∃ wb', draws ds wb = Some wb'
         ∧ length (history wb') = (length (history wb) + length ds)%nat
         ∧ history (undos (length ds) wb') = history wb.
Proof.
  destruct (draws_push ds wb) as (wb' & Hrun & Hh).
  exists wb'. split; [exact Hrun|]. split.
  - now rewrite Hh, length_app, length_seq.
  - rewrite history_undos, Hh.
    apply iter_removelast_app, length_seq.
Qed.

(** *** Every object on at most one stack *)

Lemma submseteq_NoDup {A} (l k : list A) : l ⊆+ k -> NoDup k -> NoDup l.
Proof.
  intros Hsub Hk. apply submseteq_Permutation in Hsub as [k' Hperm].
  rewrite Hperm in Hk. now apply NoDup_app in Hk as [Hl _].
Qed.

Lemma stacks_step_wf (wb wb' : t) :
  stacks_wf wb -> stacks_step wb wb' -> stacks_wf wb'.
Proof.
  intros [Hnodup Hbound] (n & Hnext & Hsub). split.
  - apply (submseteq_NoDup _ _ Hsub). apply NoDup_app. split_and!.
    + exact Hnodup.
    + intros o Ho Hfresh. apply Hbound in Ho. apply elem_of_seq in Hfresh. lia.
    + apply NoDup_seq.
  - intros o Ho. apply (elem_of_submseteq _ _ _ Ho) in Hsub.
    apply elem_of_app in Hsub as [Hold|Hfresh].
    + apply Hbound in Hold. lia.
    + apply elem_of_seq in Hfresh. lia.
Qed.

Lemma stacks_step_same (wb wb' : t) :
  history wb' = history wb -> redoStack wb' = redoStack wb ->
  (nextRef wb <= nextRef wb')%nat -> stacks_step wb wb'.
Proof.
  intros Hh Hr Hn. exists 0%nat. rewrite Hh, Hr. simpl.
  split; [lia|]. now rewrite app_nil_r.
Qed.

Lemma stacks_step_fresh (wb wb' : t) (n : nat) :
  history wb' = history wb ++ seq (nextRef wb) n ->
  redoStack wb' = redoStack wb ->
  nextRef wb' = (nextRef wb + n)%nat -> stacks_step wb wb'.
Proof.
  intros Hh Hr Hn. exists n. rewrite Hh, Hr, Hn. split; [lia|].
  solve_submseteq.
Qed.

Lemma draw_stacks (d : draw_action) (wb : t) :
  ∃ wb', draw d wb = Some wb' ∧ stacks_step wb wb'.
Proof.
  destruct (draw_pushes d wb) as (wb' & Hdraw & Hh & Hn & Hr).
  exists wb'. split; [exact Hdraw|]. exists 1%nat. rewrite Hh, Hr, Hn.
  split; [lia|]. simpl. destruct d; solve_submseteq.
Qed.

Lemma undo_stacks (wb : t) : stacks_step wb (undo wb).
Proof.
  destruct (history wb) as [|x rest _] eqn:Hhist using rev_ind.
  - rewrite undo_empty by exact Hhist. now apply stacks_step_same.
  - exists 0%nat. rewrite (undo_snoc wb rest x Hhist). wb_simpl.
    rewrite Hhist. unfold push. simpl. split; [lia|]. solve_submseteq.
Qed.

Lemma redo_stacks (wb : t) : stacks_step wb (redo wb).
Proof.
  destruct (redoStack wb) as [|x rest _] eqn:Hredo using rev_ind.
  - rewrite redo_empty by exact Hredo. now apply stacks_step_same.
  - exists 0%nat. rewrite (redo_snoc wb rest x Hredo). wb_simpl.
    rewrite Hredo. unfold push. simpl. split; [lia|]. solve_submseteq.
Qed.

Lemma on_undo_update_stacks (room : jsval) (wb : t) :
  stacks_step wb (on_undo_update room wb).
Proof.
  unfold on_undo_update.
  destruct (same_room room wb); [|now apply stacks_step_same].
  destruct (history wb) as [|x rest _] eqn:Hhist using rev_ind.
  - apply stacks_step_same; wb_simpl; auto.
  - rewrite pop_snoc. exists 0%nat. wb_simpl.
    rewrite Hhist. unfold push. simpl. split; [lia|]. solve_submseteq.
Qed.

Lemma on_redo_update_stacks (room : jsval) (wb : t) :
  stacks_step wb (on_redo_update room wb).
Proof.
  unfold on_redo_update.
  destruct (same_room room wb); [|now apply stacks_step_same].
  destruct (redoStack wb) as [|x rest _] eqn:Hredo using rev_ind.
  - apply stacks_step_same; wb_simpl; auto.
  - rewrite pop_snoc. exists 0%nat. wb_simpl.
    rewrite Hredo. unfold push. simpl. split; [lia|]. solve_submseteq.
Qed.

Lemma on_draw_update_stacks (room path : jsval) (wb : t) :
  stacks_step wb (on_draw_update room path wb).
Proof.
  unfold on_draw_update.
  destruct (same_room room wb); [|now apply stacks_step_same].
  destruct (add_enlivened_all (enlivenObjects path) wb)
    as (Hh & Hr & _ & Hn & _).
  now apply (stacks_step_fresh _ _ (length (enlivenObjects path))).
Qed.

Lemma on_cursor_update_stacks (room : jsval) (u : string) (x y : jsval)
    (wb : t) :
  stacks_step wb (on_cursor_update room u x y wb).
Proof.
  unfold on_cursor_update.
  destruct (_ && _); [|now apply stacks_step_same].
  unfold updateCursor.
  destruct (List.find _ _); apply stacks_step_same; wb_simpl; auto.
Qed.

Lemma loadExistingDrawings_stacks (drawings : list jsval) (wb : t) :
  ∃ n, history (loadExistingDrawings drawings wb)
       = history wb ++ seq (nextRef wb) n
       ∧ redoStack (loadExistingDrawings drawings wb) = redoStack wb
       ∧ nextRef (loadExistingDrawings drawings wb) = (nextRef wb + n)%nat.
Proof.
  revert wb.
  induction drawings as [|path drawings IH]; intros wb; simpl.
  - exists 0%nat. simpl. now rewrite app_nil_r, Nat.add_0_r.
  - destruct (is_object path); [|apply IH].
    destruct (enliven path) as [objects|].
    + destruct (add_enlivened_all objects wb) as (Hh & Hr & _ & Hn & _).
      destruct (IH (foldl add_enlivened wb objects))
        as (n & Hh' & Hr' & Hn').
      exists (length objects + n)%nat.
      rewrite Hh', Hr', Hn', Hh, Hr, Hn, seq_app, <- app_assoc.
      split_and!; [reflexivity..|lia].
    + exists 0%nat. simpl. now rewrite app_nil_r, Nat.add_0_r.
Qed.

Lemma receive_stacks (e : remote_event) (wb : t) :
  stacks_step wb (receive e wb).
Proof.
  destruct e; simpl.
  - apply on_cursor_update_stacks.
  - unfold on_viewport_update.
    destruct (same_room room wb); now apply stacks_step_same.
  - apply on_draw_update_stacks.
  - apply on_undo_update_stacks.
  - apply on_redo_update_stacks.
  - now apply stacks_step_same.
Qed.

Lemma step_stacks (a : action) (wb : t) :
  ∃ wb', step a wb = Some wb' ∧ stacks_step wb wb'.
Proof.
  destruct a; cbn [step]; try (eexists; split; [reflexivity|]).
  - apply draw_stacks.
  - apply undo_stacks.
  - apply redo_stacks.
  - now apply stacks_step_same.
  - unfold on_mouse_move.
    destruct (_ >? _)%Z; now apply stacks_step_same.
  - apply receive_stacks.
  - destruct (loadExistingDrawings_stacks drawings wb) as (n & Hh & Hr & Hn).
    now apply (stacks_step_fresh _ _ n).
  - now apply stacks_step_same.
  - now apply stacks_step_same.
  - now apply stacks_step_same.
  - now apply stacks_step_same.
  - now apply stacks_step_same.
  - now apply stacks_step_same.
Qed.

Lemma run_stacks_wf (acts : list action) (wb : t) :
  stacks_wf wb -> ∃ wb', run acts wb = Some wb' ∧ stacks_wf wb'.
Proof.
  revert wb. induction acts as [|a acts IH]; intros wb Hwf; simpl.
  - now exists wb.
  - destruct (step_stacks a wb) as (wb1 & -> & Hstep).
    apply IH. now apply (stacks_step_wf wb).
Qed.

Lemma new_stacks_wf (socket : SocketManager.t) (roomId : string)
    (innerWidth innerHeight containerWidth : Q) :
  stacks_wf (new socket roomId innerWidth innerHeight containerWidth).
Proof.
  split; simpl.
  - apply NoDup_nil_2.
  - intros o Ho. now apply elem_of_nil in Ho.
Qed.

(** C7.  Start from a freshly constructed whiteboard and let anything
    happen in any order: completed local draws, [undo], [redo], [clear],
    pointer moves, the arrival of the stored drawings, and the receipt of
    [draw_update], [undo_update], [redo_update] and the other remote
    events.  Every such run goes through, and in the state it reaches no
    object occurs twice in [history ++ redoStack]; in particular no object
    is on [history] and on [redoStack] at once. *)
Theorem one_stack_at_a_time (socket : SocketManager.t) (roomId : string)
    (innerWidth innerHeight containerWidth : Q) (acts : list action) :
  ∃ wb,
    run acts (new socket roomId innerWidth innerHeight containerWidth)
    = Some wb
    ∧ NoDup (history wb ++ redoStack wb)
    ∧ (∀ o, o ∈ history wb → o ∉ redoStack wb).
Proof.
  destruct (run_stacks_wf acts _
              (new_stacks_wf socket roomId innerWidth innerHeight
                 containerWidth))
    as (wb & Hrun & Hnodup & _).
  exists wb. split; [exact Hrun|]. split; [exact Hnodup|].
  apply NoDup_app in Hnodup as (_ & Hdisjoint & _). exact Hdisjoint.
Qed.

(** *** What a completed draw does to [redoStack] *)

Lemma shape_draw_clears_redoStack (wb wb' : t) (down : Q * Q)
    (moves : list (Q * Q)) :
  draw (DrawRect down moves) wb = Some wb'
  ∨ draw (DrawCircle down moves) wb = Some wb' ->
  redoStack wb' = [].
Proof.
  intros [Hdraw|Hdraw].
  - destruct (draw_pushes (DrawRect down moves) wb) as (wb1 & H1 & _ & _ & Hr).
    congruence.
  - destruct (draw_pushes (DrawCircle down moves) wb) as (wb1 & H1 & _ & _ & Hr).
    congruence.
Qed.

Lemma free_draw_keeps_redoStack (props : gmap string jsval) (wb : t) :
  redoStack (brush_stroke props wb) = redoStack wb.
Proof. reflexivity. Qed.

End WhiteboardFacts.

(** ** The model at work on the demo board *)

Example throttle_on_demo_board :
  map fst
    (throttle_trace
       [ {| sample_time := 100; sample_pointer := (5, 5)%Q |};
         {| sample_time := 120; sample_pointer := (6, 6)%Q |};
         {| sample_time := 150; sample_pointer := (7, 7)%Q |};
         {| sample_time := 151; sample_pointer := (900, -3)%Q |} ]
       Demo.board)
  = [100; 151]%Z.
Proof. reflexivity. Qed.

Example draw_undo_on_demo_board :
  (fun wb => (history wb, redoStack wb, Canvas.objects (canvas wb)))
    <$> run (Ext := Demo.fabric)
          [ Draw (FreeDraw (Demo.stroke 2));
            Draw (DrawRect (10, 10)%Q [(30, 40)%Q]);
            LocalUndo;
            Receive (draw_update (JStr "r1") (JObject (Demo.stroke 3)));
            Receive (undo_update (JStr "r1"));
            LocalRedo ]
          Demo.drawn
  = Some ([0; 1; 3], [2], [0; 1; 3])%nat.
Proof. reflexivity. Qed.

(** C1.  The free-hand path does not do what the two shape paths do.  After
    one stroke and one [undo], object 0 is on [redoStack].  A rectangle or a
    circle drawn now empties [redoStack]; a second free-hand stroke pushes
    its object on [history] and leaves object 0 on [redoStack]. *)
Theorem free_draw_after_undo :
  redoStack Demo.undone = [0%nat]
  ∧ history (brush_stroke (Ext := Demo.fabric) (Demo.stroke 2) Demo.undone)
    = [1%nat]
  ∧ redoStack (brush_stroke (Ext := Demo.fabric) (Demo.stroke 2) Demo.undone)
    = [0%nat]
  ∧ redoStack <$> draw (Ext := Demo.fabric) (DrawRect (10, 10)%Q []) Demo.undone
    = Some []
  ∧ redoStack <$> draw (Ext := Demo.fabric) (DrawCircle (10, 10)%Q []) Demo.undone
    = Some [].
Proof. split_and!; reflexivity. Qed.

(** C2 as stated fails: an [undo_update] for the client's own room pops the
    local [history] and pushes on the local [redoStack]. *)
Lemma remote_undo_moves_stacks :
  history (receive (Ext := Demo.fabric) (undo_update (JStr "r1")) Demo.drawn)
  ≠ history Demo.drawn
  ∧ redoStack (receive (Ext := Demo.fabric) (undo_update (JStr "r1")) Demo.drawn)
    ≠ redoStack Demo.drawn.
Proof. split; vm_compute; discriminate. Qed.

(** C2 (amended) on the demo board: a remote undo, then a remote redo. *)
Lemma remote_events_and_stacks_witness :
  history (receive (Ext := Demo.fabric) (undo_update (JStr "r1")) Demo.drawn)
  = []
  ∧ history (receive (Ext := Demo.fabric) (redo_update (JStr "r1")) Demo.undone)
    = [0%nat]
  ∧ receive (Ext := Demo.fabric) (undo_update (JStr "r1")) Demo.board
    = Demo.board.
Proof.
  destruct (remote_events_and_stacks (Ext := Demo.fabric) Demo.drawn)
    as (_ & _ & Hundo & _).
  destruct (remote_events_and_stacks (Ext := Demo.fabric) Demo.undone)
    as (_ & _ & _ & Hredo & _).
  destruct (remote_events_and_stacks (Ext := Demo.fabric) Demo.board)
    as (_ & _ & _ & _ & Hempty & _).
  split_and!.
  - now apply (Hundo (JStr "r1") [] 0%nat).
  - now apply (Hredo (JStr "r1") [] 0%nat).
  - now apply Hempty.
Defined.

(** C4 as stated fails: a [clear_board] that carries another room's id
    still empties the canvas. *)
Lemma clear_board_other_room :
  same_room (event_room (clear_board (JStr "r2"))) Demo.drawn = false
  ∧ Canvas.objects
      (canvas (receive (Ext := Demo.fabric) (clear_board (JStr "r2")) Demo.drawn))
    ≠ Canvas.objects (canvas Demo.drawn).
Proof. split; vm_compute; [reflexivity|discriminate]. Qed.


(** C4 (amended) on the demo board: another room's undo is dropped, another
    room's [clear_board] empties the canvas and keeps the stacks. *)
Lemma other_room_events_witness :
  receive (Ext := Demo.fabric) (undo_update (JStr "r2")) Demo.drawn
  = Demo.drawn
  ∧ history (receive (Ext := Demo.fabric) (clear_board (JStr "r2")) Demo.drawn)
    = history Demo.drawn.
Proof.
  split.
  - exact (other_room_events (Ext := Demo.fabric) Demo.drawn
             (undo_update (JStr "r2")) eq_refl).
  - exact (proj1 (proj2 (other_room_events (Ext := Demo.fabric) Demo.drawn
                           (clear_board (JStr "r2")) eq_refl))).
Defined.

(** C5 on the demo board: one object to undo, then none. *)
Lemma undo_requires_history_witness :
  history (undo (Ext := Demo.fabric) Demo.drawn) = []
  ∧ redoStack (undo (Ext := Demo.fabric) Demo.drawn) = [0%nat]
  ∧ undo (Ext := Demo.fabric) Demo.undone = Demo.undone.
Proof.
  destruct (undo_requires_history (Ext := Demo.fabric) Demo.drawn)
    as [_ Hpop].
  destruct (Hpop [] 0%nat eq_refl) as (Hh & Hr & _).
  destruct (undo_requires_history (Ext := Demo.fabric) Demo.undone)
    as [Hempty _].
  split_and!; [exact Hh|exact Hr|now apply Hempty].
Defined.

(** C10 on the demo board: [clear], then [undo] still pops object 0. *)
Lemma clear_keeps_stacks_witness :
  history (clear Demo.drawn) = [0%nat]
  ∧ history (undo (Ext := Demo.fabric) (clear Demo.drawn)) = []
  ∧ redoStack (undo (Ext := Demo.fabric) (clear Demo.drawn)) = [0%nat].
Proof.
  destruct (clear_keeps_stacks (Ext := Demo.fabric) Demo.drawn)
    as (_ & _ & Hh & _ & Hundo).
  destruct (Hundo [] 0%nat eq_refl) as (Hh' & Hr' & _).
  split_and!; [exact Hh|exact Hh'|exact Hr'].
Defined.


(** C3 on the demo board: the sample at 100 ms is let through with its own
    coordinates, the one at 120 ms is dropped without a trace, and the
    events of a longer stream are 51 ms apart. *)
Lemma cursor_throttle_witness :
  emitted_since Demo.board (on_mouse_move 100 (5, 5)%Q Demo.board)
  = [cursor_move_sent (5, 5)%Q Demo.board]
  ∧ on_mouse_move 120 (6, 6)%Q (on_mouse_move 100 (5, 5)%Q Demo.board)
    = on_mouse_move 100 (5, 5)%Q Demo.board
  ∧ (EMIT_INTERVAL < 151 - 100)%Z.
Proof.
  destruct (cursor_throttle
              [ {| sample_time := 100; sample_pointer := (5, 5)%Q |};
                {| sample_time := 120; sample_pointer := (6, 6)%Q |};
                {| sample_time := 151; sample_pointer := (900, -3)%Q |} ]
              Demo.board)
    as (Hspaced & _ & _ & _ & _ & _ & Hpass).
  destruct (cursor_throttle [] (on_mouse_move 100 (5, 5)%Q Demo.board))
    as (_ & _ & _ & _ & _ & Hdrop & _).
  split_and!.
  - now apply (Hpass {| sample_time := 100; sample_pointer := (5, 5)%Q |}).
  - now apply (Hdrop {| sample_time := 120; sample_pointer := (6, 6)%Q |}).
  - apply (Hspaced 0%nat 1%nat 100%Z 151%Z
             (cursor_move_sent (5, 5)%Q Demo.board)
             (cursor_move_sent (900, -3)%Q Demo.board));
      [lia|reflexivity..].
Defined.

(** * Further properties of the code *)

(** rewrite the [redo] (or [undo]) in the goal whose argument visibly has
    [o] on top of the stack in question *)
Ltac redo_top stack o :=
  match goal with
  | |- context [redo ?s] => rewrite (redo_snoc s stack o eq_refl)
  end.


Section UndoRedo.

Context `{Ext : Externals}.

(** X1.  [redo] needs a non-empty [redoStack].  With [redoStack] empty it
    returns the whiteboard as it was.  With [restored] on top of
    [redoStack] it pops it, pushes it on [history], puts it on top of the
    canvas and emits one [redo] event for the room whose [objectData] is the
    object's serialisation. *)
Theorem redo_requires_redoStack (wb : t) :
  (redoStack wb = [] → redo wb = wb)
  ∧ (∀ rest restored, redoStack wb = rest ++ [restored] →
       redoStack (redo wb) = rest
       ∧ history (redo wb) = history wb ++ [restored]
       ∧ Canvas.objects (canvas (redo wb))
         = Canvas.objects (canvas wb) ++ [restored]
       ∧ SocketManager.sent (socket (redo wb))
         = SocketManager.sent (socket wb)
           ++ [("redo",
                SocketManager.dataWithUser (socket wb)
                  {[ "room" := JStr (roomId wb);
                     "objectData" := toJSON (deref restored wb) ]})]).
Proof.
  split; [apply redo_empty|].
  intros rest restored Hredo. rewrite (redo_snoc wb rest restored Hredo).
  split_and!; reflexivity.
Qed.



(** X4.  [clear] erases the canvas but not the history: with [o] on top of
    [history], [clear] followed by [undo] and [redo] leaves [o] as the only
    object on the canvas, with [history] and [redoStack] as they were before
    the [clear]. *)
Theorem clear_undo_redo_brings_back (wb : t) (rest : list nat) (o : nat) :
  history wb = rest ++ [o] →
  Canvas.objects (canvas (redo (undo (clear wb)))) = [o]
  ∧ history (redo (undo (clear wb))) = history wb
  ∧ redoStack (redo (undo (clear wb))) = redoStack wb.
Proof.
  intros Hhist. rewrite (undo_snoc (clear wb) rest o Hhist).
  redo_top (redoStack wb) o. wb_simpl.
  unfold push. rewrite Hhist. split_and!; reflexivity.
Qed.

End UndoRedo.

Section Display.

Context `{Ext : Externals}.

(** *** Other participants' cursors *)

Lemma remove_first_fresh (n : nat) (l : list nat) :
  n ∉ l -> remove_first n (l ++ [n]) = l.
Proof.
  induction l as [|x l IH]; intros Hn; simpl.
  - now rewrite Nat.eqb_refl.
  - apply not_elem_of_cons in Hn as [Hne Hn].
    destruct (Nat.eqb_spec x n) as [->|_]; [contradiction|].
    now rewrite IH.
Qed.

Lemma cursor_id_inj (u v : string) : cursor_id u = cursor_id v -> u = v.
Proof. unfold cursor_id. simpl. intros Heq. now injection Heq. Qed.

(** where the cursor marker of [updateCursor] ends up *)
Lemma updateCursor_shape (u : string) (x y : jsval) (wb : t) :
  ∃ objs,
    (objs = Canvas.objects (canvas wb)
     ∨ ∃ existing,
         List.find (is_cursor_of u wb) (Canvas.objects (canvas wb))
         = Some existing
         ∧ objs = remove_first existing (Canvas.objects (canvas wb))
         ∧ List.find (is_cursor_of u wb) (Canvas.objects (canvas wb)) ≠ None)
    ∧ (List.find (is_cursor_of u wb) (Canvas.objects (canvas wb)) = None →
       objs = Canvas.objects (canvas wb))
    ∧ (∀ existing,
         List.find (is_cursor_of u wb) (Canvas.objects (canvas wb))
         = Some existing →
         objs = remove_first existing (Canvas.objects (canvas wb)))
    ∧ Canvas.objects (canvas (updateCursor u x y wb))
      = push (remove_first (nextRef wb) (objs ++ [nextRef wb])) (nextRef wb)
    ∧ heap (updateCursor u x y wb)
      = <[ nextRef wb :=
             {[ "type" := JStr "group";
                "left" := x; "top" := y;
                "selectable" := JBool false; "evented" := JBool false;
                "id" := JStr (cursor_id u);
                "zIndex" := JNum 999;
                "text" := js_or (JStr u) (JStr "Anonymous") ]} ]> (heap wb)
    ∧ history (updateCursor u x y wb) = history wb
    ∧ redoStack (updateCursor u x y wb) = redoStack wb
    ∧ socket (updateCursor u x y wb) = socket wb
    ∧ viewportState (updateCursor u x y wb) = viewportState wb
    ∧ nextRef (updateCursor u x y wb) = S (nextRef wb).
Proof.
  unfold updateCursor.
  destruct (List.find (is_cursor_of u wb) (Canvas.objects (canvas wb)))
    as [existing|] eqn:Hfind.
  - exists (remove_first existing (Canvas.objects (canvas wb))).
    wb_simpl. unfold Canvas.bringToFront, push. wb_simpl.
    rewrite bool_decide_eq_true_2
      by (apply elem_of_app; right; apply list_elem_of_here).
    split_and!; try reflexivity.
    + right. exists existing. split_and!; [reflexivity..|discriminate].
    + discriminate.
    + now intros ? [= <-].
  - exists (Canvas.objects (canvas wb)).
    wb_simpl. unfold Canvas.bringToFront, push. wb_simpl.
    rewrite bool_decide_eq_true_2
      by (apply elem_of_app; right; apply list_elem_of_here).
    split_and!; try reflexivity.
    + now left.
    + discriminate.
Qed.

(** X5.  A [cursor_update] is display only: it never changes [history],
    [redoStack] or the viewport and never sends anything.  It is dropped
    altogether when it is for another room or carries the client's own user
    name.  Otherwise the sender's marker ends up on top of the canvas, at
    the position the event gives and under the id [cursor_<userName>]. *)
Theorem cursor_update_is_display_only (room : jsval) (u : string)
    (x y : jsval) (wb : t) :
  let wb' := receive (cursor_update room u x y) wb in
  history wb' = history wb
  ∧ redoStack wb' = redoStack wb
  ∧ socket wb' = socket wb
  ∧ viewportState wb' = viewportState wb
  ∧ (same_room room wb = false ∨ SocketManager.userName (socket wb) = JStr u →
     wb' = wb)
  ∧ (same_room room wb = true →
     strict_eq (JStr u) (SocketManager.userName (socket wb)) = false →
     last (Canvas.objects (canvas wb')) = Some (nextRef wb)
     ∧ deref (nextRef wb) wb' !! "left" = Some x
     ∧ deref (nextRef wb) wb' !! "top" = Some y
     ∧ deref (nextRef wb) wb' !! "id" = Some (JStr (cursor_id u))
     ∧ deref (nextRef wb) wb' !! "type" = Some (JStr "group")).
Proof.
  intros wb'. subst wb'. cbn [receive]. unfold on_cursor_update.
  destruct (updateCursor_shape u x y wb)
    as (objs & _ & _ & _ & Hobjs & Hheap & Hh & Hr & Hs & Hv & _).
  split_and!.
  - now destruct (_ && _).
  - now destruct (_ && _).
  - now destruct (_ && _).
  - now destruct (_ && _).
  - intros [Hroom|Hname].
    + now rewrite Hroom.
    + rewrite Hname. cbn [strict_eq]. rewrite String.eqb_refl.
      now rewrite andb_false_r.
  - intros Hroom Hname. rewrite Hroom, Hname. cbn [andb negb].
    unfold deref. rewrite Hobjs, Hheap, lookup_insert_eq. cbn [default].
    unfold push. rewrite last_snoc.
    split_and!; [reflexivity|..]; now simplify_map_eq.
Qed.

Lemma is_cursor_of_old (v u : string) (x y : jsval) (wb : t) (r : nat) :
  r ≠ nextRef wb ->
  is_cursor_of v (updateCursor u x y wb) r = is_cursor_of v wb r.
Proof.
  intros Hr. destruct (updateCursor_shape u x y wb)
    as (objs & _ & _ & _ & _ & Hheap & _).
  unfold is_cursor_of, deref. rewrite Hheap.
  now rewrite lookup_insert_ne by congruence.
Qed.

Lemma is_cursor_of_new (v u : string) (x y : jsval) (wb : t) :
  is_cursor_of v (updateCursor u x y wb) (nextRef wb) = String.eqb u v.
Proof.
  destruct (updateCursor_shape u x y wb)
    as (objs & _ & _ & _ & _ & Hheap & _).
  unfold is_cursor_of, deref. rewrite Hheap, lookup_insert_eq. cbn [default].
  replace (_ !! "type") with (Some (JStr "group")) by now simplify_map_eq.
  replace (_ !! "id") with (Some (JStr (cursor_id u))) by now simplify_map_eq.
  cbn [default from_option strict_eq]. unfold id. cbn [strict_eq].
  rewrite String.eqb_refl. cbn [andb].
  destruct (String.eqb_spec u v) as [->|Hne].
  - apply String.eqb_refl.
  - apply String.eqb_neq. intros Heq. now apply cursor_id_inj in Heq.
Qed.

Lemma filter_remove_first (P : nat -> bool) (r : nat) (l : list nat) :
  r ∈ l ->
  length (List.filter P (remove_first r l))
  = (length (List.filter P l) - (if P r then 1 else 0))%nat.
Proof.
  induction l as [|a l IH]; intros Hin; [now apply elem_of_nil in Hin|].
  simpl. destruct (Nat.eqb_spec a r) as [->|Hne].
  - destruct (P r); simpl; lia.
  - apply elem_of_cons in Hin as [->|Hin]; [contradiction|].
    simpl. destruct (P a) eqn:Ha; simpl; rewrite (IH Hin).
    + destruct (P r) eqn:Hr; [|lia].
      assert (0 < length (List.filter P l))%nat; [|lia].
      clear IH. induction l as [|b l IHl]; [now apply elem_of_nil in Hin|].
      apply elem_of_cons in Hin as [<-|Hin]; simpl.
      * rewrite Hr. simpl. lia.
      * destruct (P b); simpl; [lia|now apply IHl].
    + reflexivity.
Qed.

Lemma find_elem_of (P : nat -> bool) (l : list nat) (r : nat) :
  List.find P l = Some r -> r ∈ l ∧ P r = true.
Proof.
  intros H. apply find_some in H as [Hin HP].
  split; [now apply list_elem_of_In|exact HP].
Qed.

Lemma find_none_filter (P : nat -> bool) (l : list nat) :
  List.find P l = None -> List.filter P l = [].
Proof.
  induction l as [|a l IH]; simpl; [reflexivity|].
  destruct (P a); [discriminate|exact IH].
Qed.

(** X6.  Markers do not pile up.  On a canvas whose objects have all been
    allocated, [updateCursor] for user [u] leaves exactly one marker of [u]
    where there was none or one (in general one fewer than before, plus the
    new one), and as many markers of every other user as before. *)
Theorem cursor_markers_do_not_pile_up (u : string) (x y : jsval) (wb : t) :
  Forall (fun r => (r < nextRef wb)%nat) (Canvas.objects (canvas wb)) →
  let wb' := updateCursor u x y wb in
  let markers v wb :=
    length (List.filter (is_cursor_of v wb) (Canvas.objects (canvas wb))) in
  markers u wb' = Nat.max 1 (markers u wb)
  ∧ (∀ v, v ≠ u → markers v wb' = markers v wb).
Proof.
  intros Halloc wb' markers. subst wb' markers. cbn beta.
  destruct (updateCursor_shape u x y wb)
    as (objs & Hcases & Hnone & Hsome & Hobjs & _).
  assert (Hfresh : ∀ l : list nat,
            (∀ r, r ∈ l → r ∈ Canvas.objects (canvas wb)) → nextRef wb ∉ l).
  { intros l Hl Hin. apply Hl in Hin.
    rewrite Forall_forall in Halloc. apply Halloc in Hin. lia. }
  assert (Hsub : ∀ r, r ∈ objs → r ∈ Canvas.objects (canvas wb)).
  { destruct Hcases as [->|(ex & Hfind & -> & _)]; [auto|].
    intros r Hr. clear -Hr.
    induction (Canvas.objects (canvas wb)) as [|a l IH]; simpl in Hr;
      [exact Hr|].
    destruct (Nat.eqb a ex); [now apply list_elem_of_further|].
    apply elem_of_cons in Hr as [->|Hr];
      [apply list_elem_of_here|now apply list_elem_of_further, IH]. }
  rewrite Hobjs. unfold push.
  rewrite (remove_first_fresh _ _ (Hfresh _ Hsub)).
  assert (Hold : ∀ v (l : list nat),
            (∀ r, r ∈ l → r ∈ Canvas.objects (canvas wb)) →
            List.filter (is_cursor_of v (updateCursor u x y wb)) l
            = List.filter (is_cursor_of v wb) l).
  { intros v l Hl. apply filter_ext_in. intros r Hr.
    apply is_cursor_of_old. intros ->.
    apply (Hfresh l Hl). now apply list_elem_of_In. }
  split.
  - rewrite List.filter_app, length_app, (Hold u objs Hsub). simpl.
    rewrite is_cursor_of_new, String.eqb_refl. simpl.
    destruct (List.find (is_cursor_of u wb) (Canvas.objects (canvas wb)))
      as [ex|] eqn:Hfind.
    + rewrite (Hsome ex eq_refl).
      apply find_elem_of in Hfind as [Hin HP].
      rewrite (filter_remove_first _ _ _ Hin), HP.
      assert (0 < length (List.filter (is_cursor_of u wb)
                            (Canvas.objects (canvas wb))))%nat; [|lia].
      apply list_elem_of_In in Hin.
      pose proof (proj2 (filter_In (is_cursor_of u wb) ex _) (conj Hin HP)) as Hf.
      destruct (List.filter _ _); [destruct Hf|simpl; lia].
    + rewrite (Hnone eq_refl), (find_none_filter _ _ Hfind). reflexivity.
  - intros v Hv.
    rewrite List.filter_app, length_app, (Hold v objs Hsub). simpl.
    rewrite is_cursor_of_new.
    destruct (String.eqb_spec u v) as [->|_]; [contradiction|]. simpl.
    rewrite Nat.add_0_r.
    destruct (List.find (is_cursor_of u wb) (Canvas.objects (canvas wb)))
      as [ex|] eqn:Hfind.
    + rewrite (Hsome ex eq_refl).
      apply find_elem_of in Hfind as [Hin HP].
      rewrite (filter_remove_first _ _ _ Hin).
      assert (is_cursor_of v wb ex = false) as ->; [|lia].
      unfold is_cursor_of in *.
      apply andb_true_iff in HP as [_ Hid].
      destruct (default JUndefined (deref ex wb !! "id")); try discriminate.
      cbn [strict_eq] in *. apply String.eqb_eq in Hid as ->.
      rewrite andb_false_iff. right. apply String.eqb_neq.
      intros Heq. apply cursor_id_inj in Heq. congruence.
    + now rewrite (Hnone eq_refl).
Qed.

End Display.

(** *** Re-joining after a reconnect *)

Lemma do_calls_lastRoom (calls : list SocketManager.call)
    (sm : SocketManager.t) :
  Forall (fun c => SocketManager.is_join c = false) calls ->
  SocketManager.lastRoom (SocketManager.do_calls calls sm)
  = SocketManager.lastRoom sm.
Proof.
  intros Hcalls. revert sm. unfold SocketManager.do_calls.
  induction Hcalls as [|c calls Hc _ IH]; intros sm; [reflexivity|].
  cbn [foldl]. rewrite IH. destruct c; [discriminate|reflexivity..].
Qed.

(** X7.  After [joinRoom(room)] with a usable room id, whatever the manager
    was asked before, and whatever is emitted and whichever names are set
    afterwards, a reconnect sends one more [join] for the same room, and
    this one carries the room only, not the user name.  A manager on which
    [joinRoom] was never called sends nothing on reconnect, whatever was
    emitted or renamed. *)
Theorem reconnect_joins_last_room (sm : SocketManager.t) (room : jsval)
    (before after : list SocketManager.call) :
  truthy room = true →
  Forall (fun c => SocketManager.is_join c = false) after →
  let joined :=
    SocketManager.do_calls after
      (SocketManager.joinRoom room (SocketManager.do_calls before sm)) in
  SocketManager.sent (SocketManager.on_connect joined)
  = SocketManager.sent joined ++ [("join", {[ "room" := room ]})]
  ∧ (∀ calls, Forall (fun c => SocketManager.is_join c = false) calls →
       SocketManager.on_connect (SocketManager.do_calls calls SocketManager.new)
       = SocketManager.do_calls calls SocketManager.new).
Proof.
  intros Hroom Hafter joined. split.
  - subst joined. unfold SocketManager.on_connect.
    rewrite (do_calls_lastRoom _ _ Hafter).
    cbn [SocketManager.lastRoom SocketManager.raw_emit SocketManager.joinRoom].
    rewrite Hroom. reflexivity.
  - intros calls Hcalls. unfold SocketManager.on_connect.
    now rewrite (do_calls_lastRoom _ _ Hcalls).
Qed.

Section Viewport.

Context `{Ext : Externals}.

(** X8.  A [viewport_update] for the client's room is adopted and echoed: a
    ['zoom:changed'] right after it emits a [viewport_update] for the room
    with exactly the zoom and pan received.  Neither step touches the
    canvas objects or the stacks. *)
Theorem viewport_update_is_echoed (room : jsval) (zoom : Q) (pan : Q * Q)
    (wb : t) :
  same_room room wb = true →
  let wb' := on_zoom_changed (receive (viewport_update room zoom pan) wb) in
  viewportState wb' = (zoom, pan)
  ∧ Canvas.zoom (canvas wb') = zoom
  ∧ Canvas.pan (canvas wb') = pan
  ∧ SocketManager.sent (socket wb')
    = SocketManager.sent (socket wb)
      ++ [("viewport_update",
           SocketManager.dataWithUser (socket wb)
             {[ "room" := JStr (roomId wb);
                "viewport" := viewport_json (zoom, pan) ]})]
  ∧ Canvas.objects (canvas wb') = Canvas.objects (canvas wb)
  ∧ history wb' = history wb
  ∧ redoStack wb' = redoStack wb.
Proof.
  intros Hroom wb'. subst wb'. cbn [receive]. unfold on_viewport_update.
  rewrite Hroom. split_and!; reflexivity.
Qed.

End Viewport.

(** *** The cursor throttle on any canvas *)

Lemma clamp_any (v bound : Q) :
  (Qmin 0 bound <= Qmin (Qmax v 0) bound)%Q
  ∧ (Qmin (Qmax v 0) bound <= bound)%Q.
Proof.
  split.
  - apply Q.min_le_compat_r, Q.le_max_r.
  - apply Q.le_min_r.
Qed.

Lemma clamp_negative (v bound : Q) :
  (bound < 0)%Q -> Qmin (Qmax v 0) bound = bound.
Proof.
  intros Hneg. unfold Qmin, GenericMinMax.gmin.
  assert (Hgt : Qcompare (Qmax v 0) bound = Gt).
  { apply Qgt_alt. apply Qlt_le_trans with 0%Q; [exact Hneg|].
    apply Q.le_max_r. }
  now rewrite Hgt.
Qed.

(** X9.  On any canvas, whatever its size, every emitted [cursor_move] has
    [x <= canvas.width] and [y <= canvas.height], and [x] and [y] are at
    least 0 or, on a canvas of negative size, at least that size. *)
Theorem cursor_move_bounds_on_any_canvas (ss : list sample) (wb : t) :
  Forall
    (fun '(_, (name, data)) =>
       ∃ x y, data !! "x" = Some (JNum x) ∧ data !! "y" = Some (JNum y)
              ∧ (Qmin 0 (Canvas.width (canvas wb)) <= x)%Q
              ∧ (x <= Canvas.width (canvas wb))%Q
              ∧ (Qmin 0 (Canvas.height (canvas wb)) <= y)%Q
              ∧ (y <= Canvas.height (canvas wb))%Q)
    (throttle_trace ss wb).
Proof.
  apply Forall_forall. intros [t [name data]] Hin.
  apply throttle_trace_from_samples in Hin as (s & _ & _ & He).
  destruct (cursor_move_sent_xy (sample_pointer s) wb) as [Hx Hy].
  rewrite <- He in Hx, Hy. simpl in Hx, Hy.
  eexists _, _. split; [exact Hx|]. split; [exact Hy|].
  destruct (clamp_any (fst (sample_pointer s)) (Canvas.width (canvas wb))).
  destruct (clamp_any (snd (sample_pointer s)) (Canvas.height (canvas wb))).
  split_and!; assumption.
Qed.

(** X10.  [resizeCanvas] subtracts 40 from the container's width without a
    lower bound.  In a container narrower than 40 the canvas width becomes
    negative, and from then on every [cursor_move] carries that negative
    width as its [x], wherever the pointer is. *)
Theorem narrow_container_sends_negative_x (containerWidth innerHeight : Q)
    (ss : list sample) (wb : t) :
  (containerWidth < 40)%Q →
  let wb' := resizeCanvas containerWidth innerHeight wb in
  Canvas.width (canvas wb') = (containerWidth - 40)%Q
  ∧ (Canvas.width (canvas wb') < 0)%Q
  ∧ Forall
      (fun '(_, (name, data)) =>
         data !! "x" = Some (JNum (containerWidth - 40)))
      (throttle_trace ss wb').
Proof.
  intros Hnarrow wb'.
  assert (Hneg : (containerWidth - 40 < 0)%Q).
  { destruct containerWidth as [a b].
    unfold Qlt, Qminus, Qplus, Qopp in *. simpl in *. lia. }
  split; [reflexivity|]. split; [exact Hneg|].
  apply Forall_forall. intros [t [name data]] Hin.
  apply throttle_trace_from_samples in Hin as (s & _ & _ & He).
  destruct (cursor_move_sent_xy (sample_pointer s) wb') as [Hx _].
  rewrite <- He in Hx. simpl in Hx. rewrite Hx.
  subst wb'. wb_simpl. unfold resizeCanvas. wb_simpl.
  now rewrite clamp_negative.
Qed.

(** X11.  The throttle bounds the rate: if no sample of a stream is later
    than [T] (and the last emission before the stream was not), the stream
    makes the listener emit at most one event per 51 ms between that last
    emission and [T]. *)
Theorem cursor_move_rate (ss : list sample) (wb : t) (T : Z) :
  (∀ s, s ∈ ss → (sample_time s <= T)%Z) →
  (lastEmit wb <= T)%Z →
  ((EMIT_INTERVAL + 1) * Z.of_nat (length (throttle_trace ss wb))
   <= T - lastEmit wb)%Z.
Proof.
  revert wb. induction ss as [|s ss IH]; intros wb Hss Hlast.
  - simpl. lia.
  - assert (Hs : (sample_time s <= T)%Z) by apply Hss, list_elem_of_here.
    assert (Hss' : ∀ s', s' ∈ ss → (sample_time s' <= T)%Z)
      by (intros s' Hs'; now apply Hss, list_elem_of_further).
    destruct (throttle_trace_cons s ss wb)
      as [(_ & Hwb & Htr)|(Hgt & Hlast' & Htr)]; rewrite Htr.
    + now apply IH.
    + specialize (IH (on_mouse_move (sample_time s) (sample_pointer s) wb) Hss').
      rewrite Hlast' in IH. specialize (IH Hs).
      cbn [length]. unfold EMIT_INTERVAL in *. lia.
Qed.

Section Hydration.

Context `{Ext : Externals}.

(** *** Stored and remote drawings *)

Lemma add_enlivened_heap (objs : list (gmap string jsval)) (wb : t) :
  let wb' := foldl add_enlivened wb objs in
  (∀ r, (r < nextRef wb)%nat → heap wb' !! r = heap wb !! r)
  ∧ (∀ i o, objs !! i = Some o → heap wb' !! (nextRef wb + i)%nat = Some o)
  ∧ roomId wb' = roomId wb.
Proof.
  revert wb. induction objs as [|o1 objs IH]; intros wb; cbn [foldl].
  - split_and!; [reflexivity| |reflexivity]. intros i o Hi. discriminate.
  - destruct (IH (add_enlivened wb o1)) as (Hold & Hnew & Hroom).
    unfold add_enlivened in *. wb_simpl. split_and!.
    + intros r Hr. rewrite Hold by lia. apply lookup_insert_ne. lia.
    + intros [|i] o Hi.
      * injection Hi as ->. rewrite Nat.add_0_r, Hold by lia.
        apply lookup_insert_eq.
      * rewrite <- Nat.add_succ_comm. now apply Hnew.
    + exact Hroom.
Qed.

Lemma loadExistingDrawings_fold (drawings : list jsval) (wb : t) :
  ∃ objs, loadExistingDrawings drawings wb = foldl add_enlivened wb objs.
Proof.
  revert wb. induction drawings as [|path drawings IH]; intros wb;
    [now exists []|].
  cbn [loadExistingDrawings]. destruct (is_object path); [|apply IH].
  destruct (enliven path) as [objects|]; [|now exists []].
  destruct (IH (foldl add_enlivened wb objects)) as [objs ->].
  exists (objects ++ objs). now rewrite foldl_app.
Qed.

Lemma loadExistingDrawings_all (drawings : list jsval) (wb : t) :
  Forall (fun path => is_object path = true → is_Some (enliven path))
         drawings ->
  loadExistingDrawings drawings wb
  = foldl add_enlivened wb
      (flat_map (fun path => if is_object path then enlivenObjects path else [])
                drawings).
Proof.
  intros Hok. revert wb.
  induction Hok as [|path drawings Hpath _ IH]; intros wb; [reflexivity|].
  cbn [loadExistingDrawings flat_map]. rewrite foldl_app.
  destruct (is_object path); [|apply IH].
  destruct (Hpath eq_refl) as [objects Hobjects].
  unfold enlivenObjects. rewrite Hobjects. apply IH.
Qed.

Lemma loadExistingDrawings_stops (before after : list jsval) (bad : jsval)
    (wb : t) :
  Forall (fun path => is_object path = true → is_Some (enliven path))
         before ->
  is_object bad = true ->
  enliven bad = None ->
  loadExistingDrawings (before ++ bad :: after) wb
  = loadExistingDrawings before wb.
Proof.
  intros Hok Hobj Hbad. revert wb.
  induction Hok as [|path before Hpath _ IH]; intros wb.
  - cbn. now rewrite Hobj, Hbad.
  - cbn [app loadExistingDrawings]. destruct (is_object path); [|apply IH].
    destruct (enliven path); [apply IH|reflexivity].
Qed.

(** X12.  [loadExistingDrawings] skips every entry that is not an object,
    enlivens the others in order, and puts each resulting object on the
    canvas and on [history], in that order, as a new object carrying the
    properties fabric gave it.  It sends nothing and leaves [redoStack]
    alone.  The first entry on which [enlivenObjects] throws ends the
    loading: what came before it is loaded as described, and neither it
    nor anything stored after it is. *)
Theorem stored_drawings_fill_history (before after : list jsval)
    (bad : jsval) (wb : t) :
  Forall (fun path => is_object path = true → is_Some (enliven path))
         before →
  let objs :=
    flat_map (fun path => if is_object path then enlivenObjects path else [])
             before in
  let fresh := seq (nextRef wb) (length objs) in
  let wb' := loadExistingDrawings before wb in
  history wb' = history wb ++ fresh
  ∧ Canvas.objects (canvas wb') = Canvas.objects (canvas wb) ++ fresh
  ∧ redoStack wb' = redoStack wb
  ∧ socket wb' = socket wb
  ∧ (∀ i o, objs !! i = Some o → deref (nextRef wb + i) wb' = o)
  ∧ (is_object bad = true → enliven bad = None →
     loadExistingDrawings (before ++ bad :: after) wb = wb').
Proof.
  intros Hok objs fresh wb'. subst wb'.
  rewrite (loadExistingDrawings_all _ _ Hok). fold objs.
  destruct (add_enlivened_all objs wb) as (Hh & Hr & Hc & _ & Hs & _).
  destruct (add_enlivened_heap objs wb) as (_ & Hnew & _).
  split_and!; try assumption.
  - intros i o Hi. unfold deref. now rewrite (Hnew i o Hi).
  - intros Hobj Hbad.
    rewrite (loadExistingDrawings_stops _ _ _ _ Hok Hobj Hbad).
    now rewrite (loadExistingDrawings_all _ _ Hok).
Qed.

(** X13.  What a remote participant drew can be undone here.  After a
    [draw_update] for the client's room whose last enlivened object is [o],
    a local [undo] takes that object off [history] and off the canvas, puts
    it on the local [redoStack], and emits an [undo] event with the
    serialisation of [o]. *)
Theorem undo_after_remote_draw (room path : jsval)
    (objs : list (gmap string jsval)) (o : gmap string jsval) (wb : t) :
  same_room room wb = true →
  enlivenObjects path = objs ++ [o] →
  let top := (nextRef wb + length objs)%nat in
  let wb' := undo (receive (draw_update room path) wb) in
  history wb' = history wb ++ seq (nextRef wb) (length objs)
  ∧ redoStack wb' = redoStack wb ++ [top]
  ∧ Canvas.objects (canvas wb')
    = remove_first top
        (Canvas.objects (canvas wb) ++ seq (nextRef wb) (length objs) ++ [top])
  ∧ SocketManager.sent (socket wb')
    = SocketManager.sent (socket wb)
      ++ [("undo",
           SocketManager.dataWithUser (socket wb)
             {[ "room" := JStr (roomId wb); "objectData" := toJSON o ]})].
Proof.
  intros Hroom Hpath top wb'. subst wb' top. cbn [receive].
  unfold on_draw_update. rewrite Hroom, Hpath.
  destruct (add_enlivened_all (objs ++ [o]) wb) as (Hh & Hr & Hc & _ & Hs & _).
  destruct (add_enlivened_heap (objs ++ [o]) wb) as (_ & Hnew & Hid).
  rewrite length_app, seq_app in Hh, Hc. cbn [length seq] in Hh, Hc.
  rewrite app_assoc in Hh.
  rewrite (undo_snoc _ _ _ Hh). wb_simpl.
  rewrite Hr, Hc, Hs, Hid.
  unfold deref.
  rewrite (Hnew (length objs) o) by apply list_lookup_middle, eq_refl.
  split_and!; reflexivity.
Qed.

End Hydration.

Section Shapes.

Context `{Ext : Externals}.

(** *** Shapes *)

Lemma moves_keep (move : Q * Q -> t -> t)
    (P : gmap nat (gmap string jsval) -> Prop) (moves : list (Q * Q))
    (wb : t) :
  (∀ p wb, P (heap wb) →
     ∃ h, move p wb = set_heap (fun _ => h) wb ∧ P h) ->
  P (heap wb) ->
  ∃ h, foldl (fun wb p => move p wb) wb moves = set_heap (fun _ => h) wb
       ∧ P h.
Proof.
  intros Hmove. revert wb. induction moves as [|p moves IH]; intros wb Hr;
    cbn [foldl].
  - exists (heap wb). split; [symmetry; apply set_heap_id|exact Hr].
  - destruct (Hmove p wb Hr) as (h1 & -> & Hr1).
    destruct (IH (set_heap (fun _ => h1) wb) Hr1) as (h2 & -> & Hr2).
    now exists h2.
Qed.

Lemma obj_set_kept (keys : list string) (o0 m : gmap string jsval)
    (r obj : nat) (wb : t) :
  (∀ k, k ∉ keys → m !! k = None) ->
  kept keys o0 r (heap wb) ->
  kept keys o0 r (alter (fun o => m ∪ o) obj (heap wb)).
Proof.
  intros Hm (o & Ho & Hkept). unfold kept. rewrite lookup_alter.
  case_decide; [|now exists o].
  subst. rewrite Ho. exists (m ∪ o). split; [reflexivity|].
  intros k Hk. rewrite lookup_union_r by now apply Hm. now apply Hkept.
Qed.

Lemma rect_mouse_move_keeps (o0 : gmap string jsval) (r : nat) (p : Q * Q)
    (wb : t) :
  kept ["width"; "height"; "left"; "top"] o0 r (heap wb) ->
  ∃ h, rect_mouse_move p wb = set_heap (fun _ => h) wb
       ∧ kept ["width"; "height"; "left"; "top"] o0 r h.
Proof.
  intros Hr. unfold rect_mouse_move.
  destruct (negb (isDrawing wb));
    [exists (heap wb); split; [symmetry; apply set_heap_id|exact Hr]|].
  destruct (shape (rectMode wb)) as [rect|];
    [|exists (heap wb); split; [symmetry; apply set_heap_id|exact Hr]].
  destruct (orig (rectMode wb)) as [origX origY].
  eexists. split; [unfold obj_set, set_heap; reflexivity|].
  cbn beta. apply obj_set_kept; [|exact Hr].
  intros k Hk. rewrite !not_elem_of_cons in Hk.
  destruct Hk as (? & ? & ? & ? & _). now simplify_map_eq.
Qed.

Lemma circle_mouse_move_keeps (o0 : gmap string jsval) (r : nat)
    (p : Q * Q) (wb : t) :
  kept ["radius"] o0 r (heap wb) ->
  ∃ h, circle_mouse_move p wb = set_heap (fun _ => h) wb
       ∧ kept ["radius"] o0 r h.
Proof.
  intros Hr. unfold circle_mouse_move.
  destruct (negb (isDrawing wb));
    [exists (heap wb); split; [symmetry; apply set_heap_id|exact Hr]|].
  destruct (shape (circleMode wb)) as [circle|];
    [|exists (heap wb); split; [symmetry; apply set_heap_id|exact Hr]].
  destruct (orig (circleMode wb)) as [origX origY].
  eexists. split; [unfold obj_set, set_heap; reflexivity|].
  cbn beta. apply obj_set_kept; [|exact Hr].
  intros k Hk. rewrite !not_elem_of_cons in Hk.
  destruct Hk as (? & _). now simplify_map_eq.
Qed.

Lemma shape_mouse_up_sent (obj : nat) (wb : t) :
  SocketManager.sent (socket (shape_mouse_up obj wb))
  = SocketManager.sent (socket wb)
    ++ [("draw",
         SocketManager.dataWithUser (socket wb)
           {[ "room" := JStr (roomId wb);
              "path" := toJSON (default ∅ (heap wb !! obj)) ]})].
Proof. reflexivity. Qed.

(** a rectangle during any drag: what [mouse:down] gave it, but for its
    geometry *)
Lemma rect_dragged (ox oy : Q) (moves : list (Q * Q)) (wb : t) :
  ∃ h,
    foldl (fun wb p => rect_mouse_move p wb) (rect_mouse_down (ox, oy) wb)
      moves
    = set_heap (fun _ => h) (rect_mouse_down (ox, oy) wb)
    ∧ kept ["width"; "height"; "left"; "top"]
        {[ "type" := JStr "rect";
           "left" := JNum ox; "top" := JNum oy;
           "width" := JNum 0; "height" := JNum 0;
           "fill" := JStr "transparent";
           "stroke" := Canvas.brushColor (canvas wb);
           "strokeWidth" := Canvas.brushWidth (canvas wb);
           "selectable" := JBool false ]}
        (nextRef wb) h.
Proof.
  apply (moves_keep rect_mouse_move).
  - intros p st. apply rect_mouse_move_keeps.
  - unfold rect_mouse_down. wb_simpl.
    eexists. split; [apply lookup_insert_eq|]. reflexivity.
Qed.

(** the same after the release *)
Lemma rect_drawn (ox oy : Q) (moves : list (Q * Q)) (wb : t) :
  ∃ wb',
    draw (DrawRect (ox, oy) moves) wb = Some wb'
    ∧ kept ["width"; "height"; "left"; "top"]
        {[ "type" := JStr "rect";
           "left" := JNum ox; "top" := JNum oy;
           "width" := JNum 0; "height" := JNum 0;
           "fill" := JStr "transparent";
           "stroke" := Canvas.brushColor (canvas wb);
           "strokeWidth" := Canvas.brushWidth (canvas wb);
           "selectable" := JBool false ]}
        (nextRef wb) (heap wb')
    ∧ last (history wb') = Some (nextRef wb).
Proof.
  cbn [draw]. destruct (rect_dragged ox oy moves wb) as (h & -> & Hkept).
  eexists. split; [reflexivity|]. split; [exact Hkept|].
  unfold shape_mouse_up. wb_simpl. unfold push. apply last_snoc.
Qed.

(** a circle after any drag: what [mouse:down] gave it, but for its
    radius *)
Lemma circle_drawn (ox oy : Q) (moves : list (Q * Q)) (wb : t) :
  ∃ wb',
    draw (DrawCircle (ox, oy) moves) wb = Some wb'
    ∧ kept ["radius"]
        {[ "type" := JStr "circle";
           "left" := JNum ox; "top" := JNum oy;
           "radius" := JNum 0;
           "fill" := JStr "transparent";
           "stroke" := Canvas.brushColor (canvas wb);
           "strokeWidth" := Canvas.brushWidth (canvas wb);
           "selectable" := JBool false ]}
        (nextRef wb) (heap wb')
    ∧ last (history wb') = Some (nextRef wb).
Proof.
  cbn [draw].
  match goal with |- context [kept ?keys ?o0] =>
    destruct (moves_keep circle_mouse_move (kept keys o0 (nextRef wb)) moves
                (circle_mouse_down (ox, oy) wb)) as (h & -> & Hkept)
  end.
  { intros p st. apply circle_mouse_move_keeps. }
  { unfold circle_mouse_down. wb_simpl.
    eexists. split; [apply lookup_insert_eq|]. reflexivity. }
  eexists. split; [reflexivity|]. split; [exact Hkept|].
  unfold shape_mouse_up. wb_simpl. unfold push. apply last_snoc.
Qed.

(** X14.  A shape is drawn with the brush as it is set when the mouse goes
    down: after [setColor(color)] and [setBrushSize(size)], in either order,
    a rectangle and a circle started at [down] and dragged in any way are
    transparent objects with [stroke = color] and [strokeWidth = size], and
    each is on top of [history] once the mouse is released.  The circle
    stays placed at [down]. *)
Theorem shapes_take_the_brush (color size : jsval) (down : Q * Q)
    (moves : list (Q * Q)) (wb : t) :
  ∀ wb1, wb1 = setBrushSize size (setColor color wb)
         ∨ wb1 = setColor color (setBrushSize size wb) →
  ∃ wbr wbc,
    draw (DrawRect down moves) wb1 = Some wbr
    ∧ draw (DrawCircle down moves) wb1 = Some wbc
    ∧ (∀ wb', wb' = wbr ∨ wb' = wbc →
         deref (nextRef wb) wb' !! "stroke" = Some color
         ∧ deref (nextRef wb) wb' !! "strokeWidth" = Some size
         ∧ deref (nextRef wb) wb' !! "fill" = Some (JStr "transparent")
         ∧ last (history wb') = Some (nextRef wb))
    ∧ deref (nextRef wb) wbc !! "left" = Some (JNum (fst down))
    ∧ deref (nextRef wb) wbc !! "top" = Some (JNum (snd down)).
Proof.
  intros wb1 Hwb1. destruct down as [x y].
  assert (Hbrush : Canvas.brushColor (canvas wb1) = color
                   ∧ Canvas.brushWidth (canvas wb1) = size
                   ∧ nextRef wb1 = nextRef wb)
    by (destruct Hwb1 as [-> | ->]; now split_and!).
  destruct Hbrush as (Hcolor & Hsize & Hnext).
  destruct (rect_drawn x y moves wb1) as (wbr & Hr & (o & Ho & Hkept) & Hlast).
  destruct (circle_drawn x y moves wb1)
    as (wbc & Hc & (o' & Ho' & Hkept') & Hlast').
  rewrite Hcolor, Hsize in Hkept, Hkept'. rewrite Hnext in *.
  exists wbr, wbc. split; [exact Hr|]. split; [exact Hc|].
  unfold deref. split_and!.
  - intros wb' [-> | ->]; [rewrite Ho|rewrite Ho']; cbn [default from_option];
      rewrite ?Hkept, ?Hkept' by (rewrite !not_elem_of_cons; now split_and!);
      (split_and!; [now simplify_map_eq..|assumption]).
  - rewrite Ho'. cbn [default from_option fst].
    rewrite Hkept' by (rewrite !not_elem_of_cons; now split_and!).
    now simplify_map_eq.
  - rewrite Ho'. cbn [default from_option snd].
    rewrite Hkept' by (rewrite !not_elem_of_cons; now split_and!).
    now simplify_map_eq.
Qed.

(** X15.  The last move of a drag alone decides the geometry of a
    rectangle.  After a press at [(ox, oy)], any moves and a last move to
    [(px, py)], the rectangle released has [left = min(ox, px)],
    [top = min(oy, py)], and for [width] and [height] the absolute values
    of the differences [px - ox] and [py - oy] as JavaScript computes
    them, in doubles.  It is on top of [history], and the last event sent
    is the [draw] that carries the serialisation of exactly these
    properties. *)
Theorem rect_is_set_by_last_move (ox oy px py : Q)
    (moves : list (Q * Q)) (wb : t) :
  ∃ wb' props,
    draw (DrawRect (ox, oy) (moves ++ [(px, py)])) wb = Some wb'
    ∧ heap wb' !! nextRef wb = Some props
    ∧ props !! "left" = Some (JNum (Qmin ox px))
    ∧ props !! "top" = Some (JNum (Qmin oy py))
    ∧ props !! "width" = Some (JNum (Qabs (round_double (px - ox))))
    ∧ props !! "height" = Some (JNum (Qabs (round_double (py - oy))))
    ∧ last (history wb') = Some (nextRef wb)
    ∧ last (SocketManager.sent (socket wb'))
      = Some ("draw",
              SocketManager.dataWithUser (socket wb)
                {[ "room" := JStr (roomId wb); "path" := toJSON props ]}).
Proof.
  cbn [draw]. rewrite foldl_app. cbn [foldl].
  destruct (rect_dragged ox oy moves wb) as (h & -> & (o & Ho & _)).
  set (m := ({[ "width" := JNum (Qabs (round_double (px - ox)));
                "height" := JNum (Qabs (round_double (py - oy)));
                "left" := JNum (Qmin ox px);
                "top" := JNum (Qmin oy py) ]} : gmap string jsval)).
  exists (shape_mouse_up (nextRef wb)
            (obj_set (nextRef wb) m
               (set_heap (fun _ => h) (rect_mouse_down (ox, oy) wb)))),
         (m ∪ o).
  split; [reflexivity|].
  assert (Hheap : heap (obj_set (nextRef wb) m
                          (set_heap (fun _ => h)
                             (rect_mouse_down (ox, oy) wb)))
                  !! nextRef wb = Some (m ∪ o)).
  { change (alter (fun o => m ∪ o) (nextRef wb) h !! nextRef wb
            = Some (m ∪ o)).
    now rewrite lookup_alter, decide_True, Ho by reflexivity. }
  split; [exact Hheap|].
  split_and!; try (apply lookup_union_Some_l; subst m; now simplify_map_eq).
  - unfold shape_mouse_up. wb_simpl. unfold push. apply last_snoc.
  - rewrite shape_mouse_up_sent, Hheap, last_snoc. reflexivity.
Qed.

End Shapes.

Section Protocol.

Context `{Ext : Externals}.

(** *** Everything sent names the room *)

Lemma truthy_js_or (v : jsval) : truthy (js_or v (JStr "Anonymous")) = true.
Proof. unfold js_or. now destruct (truthy v) eqn:Hv. Qed.

Lemma emit_addressed (room name : string) (data : gmap string jsval)
    (sm : SocketManager.t) :
  data !! "room" = Some (JStr room) ->
  addressed_to room (name, SocketManager.dataWithUser sm data).
Proof.
  intros Hroom. unfold addressed_to, SocketManager.dataWithUser. cbn [fst snd].
  split.
  - now rewrite lookup_insert_ne by discriminate.
  - intros _. eexists. split; [apply lookup_insert_eq|apply truthy_js_or].
Qed.

Lemma silent_step (wb wb' : t) :
  socket wb' = socket wb ->
  ∃ evs,
    SocketManager.sent (socket wb') = SocketManager.sent (socket wb) ++ evs
    ∧ Forall (addressed_to (roomId wb)) evs.
Proof.
  intros ->. exists []. split; [now rewrite app_nil_r|constructor].
Qed.

Lemma receive_silent (e : remote_event) (wb : t) :
  socket (receive e wb) = socket wb ∧ roomId (receive e wb) = roomId wb.
Proof.
  destruct e as [room u x y|room z p|room path|room|room|room]; cbn [receive].
  - unfold on_cursor_update. destruct (_ && _); [|now split].
    unfold updateCursor. now destruct (List.find _ _).
  - unfold on_viewport_update. now destruct (same_room room wb).
  - unfold on_draw_update. destruct (same_room room wb); [|now split].
    destruct (add_enlivened_all (enlivenObjects path) wb)
      as (_ & _ & _ & _ & Hs & _).
    destruct (add_enlivened_heap (enlivenObjects path) wb) as (_ & _ & Hid).
    now split.
  - unfold on_undo_update. destruct (same_room room wb); [|now split].
    now destruct (pop (history wb)) as [[? ?]|].
  - unfold on_redo_update. destruct (same_room room wb); [|now split].
    now destruct (pop (redoStack wb)) as [[? ?]|].
  - now split.
Qed.

Lemma step_addressed (a : action) (wb wb' : t) :
  step a wb = Some wb' ->
  SocketManager.lastRoom (socket wb) = JStr (roomId wb) ->
  (∃ evs,
     SocketManager.sent (socket wb') = SocketManager.sent (socket wb) ++ evs
     ∧ Forall (addressed_to (roomId wb)) evs)
  ∧ roomId wb' = roomId wb
  ∧ SocketManager.lastRoom (socket wb') = SocketManager.lastRoom (socket wb).
Proof.
  intros Hstep Hlast.
  destruct a as [d| | | |now p|e|drawings|cw ih| |color|size|name|];
    cbn [step] in Hstep.
  - destruct d as [props|[x y] moves|[x y] moves]; cbn [draw] in Hstep.
    + injection Hstep as <-. split; [|now split].
      eexists [_]. split; [reflexivity|]. apply Forall_singleton.
      apply emit_addressed. now simplify_map_eq.
    + destruct (moves_heap_only rect_mouse_move moves
                  (rect_mouse_down (x, y) wb) rect_mouse_move_heap_only)
        as [h Hmoves].
      rewrite Hmoves in Hstep. injection Hstep as <-.
      split; [|now split].
      eexists [_]. split; [reflexivity|]. apply Forall_singleton.
      apply emit_addressed. now simplify_map_eq.
    + destruct (moves_heap_only circle_mouse_move moves
                  (circle_mouse_down (x, y) wb) circle_mouse_move_heap_only)
        as [h Hmoves].
      rewrite Hmoves in Hstep. injection Hstep as <-.
      split; [|now split].
      eexists [_]. split; [reflexivity|]. apply Forall_singleton.
      apply emit_addressed. now simplify_map_eq.
  - injection Hstep as <-.
    destruct (history wb) as [|x rest _] eqn:Hhist using rev_ind.
    + rewrite undo_empty by exact Hhist.
      split; [now apply silent_step|now split].
    + rewrite (undo_snoc wb rest x Hhist). split; [|now split].
      eexists [_]. split; [reflexivity|]. apply Forall_singleton.
      apply emit_addressed. now simplify_map_eq.
  - injection Hstep as <-.
    destruct (redoStack wb) as [|x rest _] eqn:Hredo using rev_ind.
    + rewrite redo_empty by exact Hredo.
      split; [now apply silent_step|now split].
    + rewrite (redo_snoc wb rest x Hredo). split; [|now split].
      eexists [_]. split; [reflexivity|]. apply Forall_singleton.
      apply emit_addressed. now simplify_map_eq.
  - injection Hstep as <-. split; [|now split].
    eexists [_]. split; [reflexivity|]. apply Forall_singleton.
    apply emit_addressed. now simplify_map_eq.
  - injection Hstep as <-. unfold on_mouse_move.
    destruct (_ >? _)%Z; [|split; [now apply silent_step|now split]].
    split; [|now split].
    eexists [_]. split; [reflexivity|]. apply Forall_singleton.
    apply emit_addressed. now simplify_map_eq.
  - injection Hstep as <-. destruct (receive_silent e wb) as [Hs Hid].
    split; [now apply silent_step|]. split; [exact Hid|now rewrite Hs].
  - injection Hstep as <-.
    destruct (loadExistingDrawings_fold drawings wb) as [l ->].
    destruct (add_enlivened_all l wb) as (_ & _ & _ & _ & Hs & _).
    destruct (add_enlivened_heap l wb) as (_ & _ & Hid).
    split; [now apply silent_step|]. split; [exact Hid|now rewrite Hs].
  - injection Hstep as <-. split; [now apply silent_step|now split].
  - injection Hstep as <-. split; [|now split].
    eexists [_]. split; [reflexivity|]. apply Forall_singleton.
    apply emit_addressed. now simplify_map_eq.
  - injection Hstep as <-. split; [now apply silent_step|now split].
  - injection Hstep as <-. split; [now apply silent_step|now split].
  - injection Hstep as <-. split; [|now split].
    exists []. split; [now rewrite app_nil_r|constructor].
  - injection Hstep as <-. split; [|split; [reflexivity|]].
    + cbn [socket set_socket]. unfold SocketManager.on_connect.
      rewrite Hlast. destruct (truthy (JStr (roomId wb)));
        [|exists []; split; [now rewrite app_nil_r|constructor]].
      eexists [_]. split; [reflexivity|]. apply Forall_singleton.
      split; [apply lookup_singleton_eq|]. intros Hjoin. now destruct Hjoin.
    + cbn [socket set_socket]. unfold SocketManager.on_connect.
      now destruct (truthy _).
Qed.

Lemma run_addressed (acts : list action) (wb : t) :
  SocketManager.lastRoom (socket wb) = JStr (roomId wb) ->
  ∃ wb' evs,
    run acts wb = Some wb'
    ∧ SocketManager.sent (socket wb') = SocketManager.sent (socket wb) ++ evs
    ∧ Forall (addressed_to (roomId wb)) evs.
Proof.
  revert wb. induction acts as [|a acts IH]; intros wb Hlast; cbn [run].
  - exists wb, []. split_and!; [reflexivity|now rewrite app_nil_r|constructor].
  - destruct (step_stacks a wb) as (wb1 & Hstep & _). rewrite Hstep.
    destruct (step_addressed a wb wb1 Hstep Hlast)
      as ((evs1 & Hsent1 & Hevs1) & Hid & Hlast1).
    destruct (IH wb1) as (wb' & evs & Hrun & Hsent & Hevs).
    { now rewrite Hlast1, Hid. }
    exists wb', (evs1 ++ evs). split; [exact Hrun|]. split.
    + now rewrite Hsent, Hsent1, app_assoc.
    + apply Forall_app. split; [exact Hevs1|now rewrite <- Hid].
Qed.

(** X16.  Whatever happens to a whiteboard after its construction (draws,
    undo, redo, clear, pointer moves, zoom changes, renames, reconnects,
    remote events, stored drawings), every event it hands to the socket,
    starting with the constructor's [join], names the whiteboard's own room
    in its [room] field, and every event other than a [join] carries a user
    name that is not empty. *)
Theorem everything_sent_names_the_room (sock : SocketManager.t)
    (room : string) (innerWidth innerHeight containerWidth : Q)
    (acts : list action) :
  ∃ wb evs,
    run acts (new sock room innerWidth innerHeight containerWidth) = Some wb
    ∧ SocketManager.sent (socket wb) = SocketManager.sent sock ++ evs
    ∧ Forall (addressed_to room) evs.
Proof.
  destruct (run_addressed acts
              (new sock room innerWidth innerHeight containerWidth) eq_refl)
    as (wb & evs & Hrun & Hsent & Hevs).
  exists wb, (("join",
               <[ "userName" := SocketManager.userName sock ]>
                 ({[ "room" := JStr room ]} : gmap string jsval)) :: evs).
  split; [exact Hrun|]. split.
  - rewrite Hsent. cbn. unfold push. now rewrite <- app_assoc.
  - constructor; [|exact Hevs]. split.
    + cbn [snd]. now simplify_map_eq.
    + intros Hjoin. now destruct Hjoin.
Qed.

End Protocol.

Section ToolFacts.

Context `{Ext : Externals}.

(** *** Tools and the cursor throttle *)

(** what a listener other than the throttle can do to the socket log *)
Lemma run_listener_draw_only (l : Tools.listener) (e : Tools.mouse_event)
    (ui : Tools.t) :
  l ≠ Tools.Throttle ->
  match Tools.run_listener l e ui with
  | Tools.Returned ui' =>
      Tools.mouse_down ui' = Tools.mouse_down ui
      ∧ Tools.mouse_move ui' = Tools.mouse_move ui
      ∧ Tools.mouse_up ui' = Tools.mouse_up ui
      ∧ ∃ evs,
          SocketManager.sent (socket (Tools.board ui'))
          = SocketManager.sent (socket (Tools.board ui)) ++ evs
          ∧ Forall (fun ev => fst ev = "draw") evs
          ∧ (Tools.is_shape_move l = true → evs = [])
  | Tools.Thrown ui' => ui' = ui
  | Tools.Stuck => True
  end.
Proof.
  intros Hl. destruct e as [time [x y]].
  destruct l as [|c|c|c|c|c|c]; [contradiction|..]; cbn [Tools.run_listener].
  - split_and!; try reflexivity. exists []. rewrite app_nil_r.
    split_and!; [reflexivity|constructor|discriminate].
  - destruct (_ && _); [reflexivity|].
    split_and!; try reflexivity. exists []. rewrite app_nil_r.
    split_and!; [|constructor|reflexivity].
    unfold Tools.in_rect_call. cbn [Tools.board].
    match goal with
    | |- context [rect_mouse_move ?p ?st] =>
        destruct (rect_mouse_move_heap_only p st) as [h ->]
    end.
    reflexivity.
  - destruct (Tools.local_shape c ui) as [rect|]; [|exact I].
    split_and!; try reflexivity. eexists [_].
    split_and!; [reflexivity|now constructor|discriminate].
  - split_and!; try reflexivity. exists []. rewrite app_nil_r.
    split_and!; [reflexivity|constructor|discriminate].
  - destruct (_ && _); [reflexivity|].
    split_and!; try reflexivity. exists []. rewrite app_nil_r.
    split_and!; [|constructor|reflexivity].
    unfold Tools.in_circle_call. cbn [Tools.board].
    match goal with
    | |- context [circle_mouse_move ?p ?st] =>
        destruct (circle_mouse_move_heap_only p st) as [h ->]
    end.
    reflexivity.
  - destruct (Tools.local_shape c ui) as [circle|]; [|exact I].
    split_and!; try reflexivity. eexists [_].
    split_and!; [reflexivity|now constructor|discriminate].
Qed.

Lemma fire_draw_only (ls : list Tools.listener) (e : Tools.mouse_event)
    (ui ui' : Tools.t) :
  (Tools.Throttle ∉ ls) ->
  Tools.fire ls e ui = Some ui' ->
  Tools.mouse_down ui' = Tools.mouse_down ui
  ∧ Tools.mouse_move ui' = Tools.mouse_move ui
  ∧ Tools.mouse_up ui' = Tools.mouse_up ui
  ∧ ∃ evs,
      SocketManager.sent (socket (Tools.board ui'))
      = SocketManager.sent (socket (Tools.board ui)) ++ evs
      ∧ Forall (fun ev => fst ev = "draw") evs
      ∧ (forallb Tools.is_shape_move ls = true → evs = []).
Proof.
  revert ui. induction ls as [|l ls IH]; intros ui Hls Hfire;
    cbn [Tools.fire] in Hfire.
  - injection Hfire as <-. split_and!; try reflexivity. exists [].
    rewrite app_nil_r. split_and!; [reflexivity|constructor|reflexivity].
  - apply not_elem_of_cons in Hls as [Hl Hls].
    pose proof (run_listener_draw_only l e ui (not_eq_sym Hl)) as Hrun.
    destruct (Tools.run_listener l e ui) as [ui1|ui1|]; [| |discriminate].
    + destruct Hrun as (Hd & Hm & Hu & evs1 & Hsent1 & Hevs1 & Hq1).
      destruct (IH ui1 Hls Hfire) as (Hd' & Hm' & Hu' & evs & Hsent & Hevs & Hq).
      split_and!; [congruence..|].
      exists (evs1 ++ evs). split_and!.
      * now rewrite Hsent, Hsent1, app_assoc.
      * now apply Forall_app.
      * cbn [forallb]. intros [H1 H2]%andb_true_iff.
        now rewrite (Hq1 H1), (Hq H2).
    + injection Hfire as <-. subst ui1. split_and!; try reflexivity.
      exists []. rewrite app_nil_r.
      split_and!; [reflexivity|constructor|reflexivity].
Qed.

Lemma handle_draw_only (i : Tools.input) (ui ui' : Tools.t) :
  (Tools.Throttle ∉ Tools.mouse_down ui) ->
  (Tools.Throttle ∉ Tools.mouse_move ui) ->
  (Tools.Throttle ∉ Tools.mouse_up ui) ->
  Tools.handle i ui = Some ui' ->
  (Tools.Throttle ∉ Tools.mouse_down ui')
  ∧ (Tools.Throttle ∉ Tools.mouse_move ui')
  ∧ (Tools.Throttle ∉ Tools.mouse_up ui')
  ∧ ∃ evs,
      SocketManager.sent (socket (Tools.board ui'))
      = SocketManager.sent (socket (Tools.board ui)) ++ evs
      ∧ Forall (fun ev => fst ev = "draw") evs.
Proof.
  intros Hd Hm Hu Hi. destruct i as [mode|e|e|e|props]; cbn [Tools.handle] in Hi.
  - injection Hi as <-.
    destruct mode; cbn;
      (split_and!;
       [try apply not_elem_of_nil;
        try (apply not_elem_of_app; split;
             [assumption|apply not_elem_of_cons; split;
                         [discriminate|apply not_elem_of_nil]])..|]);
      exists []; rewrite app_nil_r; (split; [reflexivity|constructor]).
  - destruct (fire_draw_only _ e ui ui' Hd Hi) as (-> & -> & -> & evs & ? & ? & _).
    split_and!; try assumption. now exists evs.
  - destruct (fire_draw_only _ e ui ui' Hm Hi) as (-> & -> & -> & evs & ? & ? & _).
    split_and!; try assumption. now exists evs.
  - destruct (fire_draw_only _ e ui ui' Hu Hi) as (-> & -> & -> & evs & ? & ? & _).
    split_and!; try assumption. now exists evs.
  - injection Hi as <-.
    destruct (Canvas.isDrawingMode _); cbn [Tools.set_board Tools.mouse_down
      Tools.mouse_move Tools.mouse_up Tools.board];
      (split_and!; try assumption).
    + eexists [_]. split; [reflexivity|now constructor].
    + exists []. rewrite app_nil_r. split; [reflexivity|constructor].
Qed.

(** X17.  Selecting the draw tool ends cursor sharing for good.
    [initDrawMode] empties the ['mouse:move'] listeners, the throttle among
    them, and nothing registers it again: whatever the user does after a
    [setMode('draw')] (select tools, press, move, release, draw free-hand),
    the throttle is not among the listeners and the only events sent are
    [draw] events, never a [cursor_move]. *)
Theorem draw_tool_ends_cursor_sharing (ui ui' : Tools.t)
    (inputs : list Tools.input) :
  Tools.handle_all inputs (Tools.setMode Tools.DrawTool ui) = Some ui' →
  (Tools.Throttle ∉ Tools.mouse_move ui')
  ∧ ∃ evs,
      SocketManager.sent (socket (Tools.board ui'))
      = SocketManager.sent (socket (Tools.board ui)) ++ evs
      ∧ Forall (fun ev => fst ev = "draw") evs.
Proof.
  assert (Hall : ∀ inputs ui0 ui',
            (Tools.Throttle ∉ Tools.mouse_down ui0) →
            (Tools.Throttle ∉ Tools.mouse_move ui0) →
            (Tools.Throttle ∉ Tools.mouse_up ui0) →
            Tools.handle_all inputs ui0 = Some ui' →
            (Tools.Throttle ∉ Tools.mouse_move ui')
            ∧ ∃ evs,
                SocketManager.sent (socket (Tools.board ui'))
                = SocketManager.sent (socket (Tools.board ui0)) ++ evs
                ∧ Forall (fun ev => fst ev = "draw") evs).
  { clear. intros inputs. induction inputs as [|i inputs IH];
      intros ui0 ui' Hd Hm Hu Hrun; cbn [Tools.handle_all] in Hrun.
    - injection Hrun as <-. split; [exact Hm|]. exists [].
      rewrite app_nil_r. split; [reflexivity|constructor].
    - destruct (Tools.handle i ui0) as [ui1|] eqn:Hi; [|discriminate].
      destruct (handle_draw_only i ui0 ui1 Hd Hm Hu Hi)
        as (Hd1 & Hm1 & Hu1 & evs1 & Hsent1 & Hevs1).
      destruct (IH ui1 ui' Hd1 Hm1 Hu1 Hrun) as (Hq & evs & Hsent & Hevs).
      split; [exact Hq|]. exists (evs1 ++ evs). split.
      + now rewrite Hsent, Hsent1, app_assoc.
      + now apply Forall_app. }
  intros Hrun.
  apply (Hall inputs (Tools.setMode Tools.DrawTool ui) ui');
    try apply not_elem_of_nil. exact Hrun.
Qed.

End ToolFacts.

Section StackedTools.

Context `{Ext : Externals}.

(** *** Shape tools pile up *)






(** X19.  From construction on, and through any selection of the shape
    tools, the throttle stays the first ['mouse:move'] listener, and the
    listeners the shape tools add for that event send nothing: a mouse move
    hands to the socket exactly what the throttle alone hands to it. *)
Theorem cursor_sharing_survives_shape_tools (sock : SocketManager.t)
    (room : string) (innerWidth innerHeight containerWidth : Q)
    (tools : list Tools.tool) (e : Tools.mouse_event) :
  Forall (fun m => m ≠ Tools.DrawTool) tools →
  let ui :=
    foldl (fun u m => Tools.setMode m u)
          (Tools.new sock room innerWidth innerHeight containerWidth)
          tools in
  ∃ ui',
    Tools.handle (Tools.MouseMove e) ui = Some ui'
    ∧ SocketManager.sent (socket (Tools.board ui'))
      = SocketManager.sent
          (socket (on_mouse_move (Tools.at_time e) (Tools.at_pointer e)
                     (Tools.board ui))).
Proof.
  intros Htools ui.
  assert (Hmoves : ∃ rest, Tools.mouse_move ui = Tools.Throttle :: rest
                           ∧ forallb Tools.is_shape_move rest = true).
  { subst ui. induction tools as [|m tools IH] using rev_ind.
    - now exists [].
    - apply Forall_app in Htools as [Htools Hm].
      rewrite Forall_singleton in Hm.
      destruct (IH Htools) as (rest & Hrest & Hall).
      rewrite foldl_app. cbn [foldl].
      destruct m; [now destruct Hm|..]; eexists (rest ++ [_]);
        cbn [Tools.setMode Tools.initRectMode Tools.initCircleMode
             Tools.mouse_move];
        rewrite Hrest, forallb_app, Hall; split; reflexivity. }
  destruct Hmoves as (rest & Hrest & Hall).
  cbn [Tools.handle]. rewrite Hrest. cbn [Tools.fire Tools.run_listener].
  assert (Htotal : ∀ ls ui0, forallb Tools.is_shape_move ls = true →
                             ∃ ui', Tools.fire ls e ui0 = Some ui').
  { clear. intros ls. induction ls as [|l ls IH]; intros ui0 Hls.
    - now exists ui0.
    - cbn [forallb] in Hls. apply andb_true_iff in Hls as [Hl Hls].
      cbn [Tools.fire].
      destruct l; try discriminate; cbn [Tools.run_listener];
        (destruct (_ && _); [eauto|apply IH, Hls]). }
  destruct (Htotal rest
              (Tools.set_board
                 (on_mouse_move (Tools.at_time e) (Tools.at_pointer e)
                    (Tools.board ui)) ui) Hall) as [ui' Hfire].
  exists ui'. split; [exact Hfire|].
  assert (Hnot : Tools.Throttle ∉ rest).
  { intros Hin. rewrite forallb_forall in Hall.
    apply list_elem_of_In, Hall in Hin. discriminate. }
  destruct (fire_draw_only rest e _ ui' Hnot Hfire)
    as (_ & _ & _ & evs & Hsent & _ & Hq).
  rewrite Hsent, (Hq Hall), app_nil_r. reflexivity.
Qed.

End StackedTools.

(** ** The further properties on the demo board *)

(** X1 on the demo board: one object to redo, then none. *)
Lemma redo_requires_redoStack_witness :
  history (redo (Ext := Demo.fabric) Demo.undone) = [0%nat]
  ∧ redoStack (redo (Ext := Demo.fabric) Demo.undone) = []
  ∧ redo (Ext := Demo.fabric) Demo.drawn = Demo.drawn.
Proof.
  destruct (redo_requires_redoStack (Ext := Demo.fabric) Demo.undone)
    as [_ Hpop].
  destruct (Hpop [] 0%nat eq_refl) as (Hr & Hh & _).
  destruct (redo_requires_redoStack (Ext := Demo.fabric) Demo.drawn)
    as [Hempty _].
  split_and!; [exact Hh|exact Hr|now apply Hempty].
Defined.



(** X4 on the demo board. *)
Lemma clear_undo_redo_brings_back_witness :
  Canvas.objects
    (canvas (redo (Ext := Demo.fabric)
               (undo (Ext := Demo.fabric) (clear Demo.drawn))))
  = [0%nat].
Proof.
  exact (proj1 (clear_undo_redo_brings_back (Ext := Demo.fabric) Demo.drawn
                  [] 0%nat eq_refl)).
Defined.

(** X5 on the demo board: bob's marker is object 1, on top, at (10, 20);
    ann's own echo is dropped. *)
Lemma cursor_update_is_display_only_witness :
  last (Canvas.objects (canvas Scenes.bob_seen)) = Some 1%nat
  ∧ deref 1 Scenes.bob_seen !! "left" = Some (JNum 10)
  ∧ receive (Ext := Demo.fabric)
      (cursor_update (JStr "r1") "ann" (JNum 10) (JNum 20)) Demo.drawn
    = Demo.drawn.
Proof.
  destruct (cursor_update_is_display_only (Ext := Demo.fabric)
              (JStr "r1") "bob" (JNum 10) (JNum 20) Demo.drawn)
    as (_ & _ & _ & _ & _ & Hshown).
  destruct (Hshown eq_refl eq_refl) as (Hlast & Hleft & _).
  destruct (cursor_update_is_display_only (Ext := Demo.fabric)
              (JStr "r1") "ann" (JNum 10) (JNum 20) Demo.drawn)
    as (_ & _ & _ & _ & Hdropped & _).
  split_and!; [exact Hlast|exact Hleft|].
  apply Hdropped. now right.
Defined.

(** X6 on the demo board: bob's cursor moves, and there is still one
    marker of bob. *)
Lemma cursor_markers_do_not_pile_up_witness :
  length
    (List.filter
       (is_cursor_of "bob"
          (updateCursor "bob" (JNum 30) (JNum 40) Scenes.bob_seen))
       (Canvas.objects
          (canvas (updateCursor "bob" (JNum 30) (JNum 40) Scenes.bob_seen))))
  = Nat.max 1
      (length
         (List.filter (is_cursor_of "bob" Scenes.bob_seen)
            (Canvas.objects (canvas Scenes.bob_seen)))).
Proof.
  refine (proj1 (cursor_markers_do_not_pile_up "bob" (JNum 30) (JNum 40)
                   Scenes.bob_seen _)).
  vm_compute. repeat constructor.
Defined.

(** X7 for the demo's manager: it joins [r1], emits a stroke and is
    renamed; a manager that was only renamed stays silent. *)
Lemma reconnect_joins_last_room_witness :
  SocketManager.sent
    (SocketManager.on_connect
       (SocketManager.setUserName (JStr "bob")
          (SocketManager.emit "draw" ∅
             (SocketManager.joinRoom (JStr "r1") Demo.ann))))
  = SocketManager.sent
      (SocketManager.setUserName (JStr "bob")
         (SocketManager.emit "draw" ∅
            (SocketManager.joinRoom (JStr "r1") Demo.ann)))
    ++ [("join", {[ "room" := JStr "r1" ]})]
  ∧ SocketManager.on_connect Demo.ann = Demo.ann.
Proof.
  destruct (reconnect_joins_last_room Demo.ann (JStr "r1") []
              Scenes.afterwards eq_refl)
    as [Hjoin Hnever].
  { unfold Scenes.afterwards. repeat constructor. }
  split; [exact Hjoin|].
  apply (Hnever [SocketManager.CallSetUserName (JStr "ann")]).
  repeat constructor.
Defined.

(** X8 on the demo board. *)
Lemma viewport_update_is_echoed_witness :
  viewportState
    (on_zoom_changed
       (receive (Ext := Demo.fabric)
          (viewport_update (JStr "r1") 2 (3, 4)%Q) Demo.board))
  = (2, (3, 4))%Q.
Proof.
  exact (proj1 (viewport_update_is_echoed (Ext := Demo.fabric) (JStr "r1")
                  2 (3, 4)%Q Demo.board eq_refl)).
Defined.

(** X10 on the demo board squeezed into a container 30 wide. *)
Lemma narrow_container_sends_negative_x_witness :
  Forall
    (fun '(_, (name, data)) => data !! "x" = Some (JNum (30 - 40)))
    (throttle_trace Scenes.samples (resizeCanvas 30 800 Demo.board)).
Proof.
  exact (proj2 (proj2 (narrow_container_sends_negative_x 30 800
                         Scenes.samples Demo.board eq_refl))).
Defined.

(** X11 on the demo board: at most 3 events in the first 200 ms. *)
Lemma cursor_move_rate_witness :
  ((EMIT_INTERVAL + 1)
   * Z.of_nat (length (throttle_trace Scenes.samples Demo.board))
   <= 200 - lastEmit Demo.board)%Z.
Proof.
  apply cursor_move_rate.
  - intros s Hs. unfold Scenes.samples in Hs.
    rewrite !elem_of_cons, elem_of_nil in Hs.
    destruct Hs as [->|[->|[->|[]]]]; cbn; lia.
  - cbn. lia.
Defined.

(** X13 on the demo board: a remote stroke arrives and is undone here. *)
Lemma undo_after_remote_draw_witness :
  redoStack
    (undo (Ext := Demo.fabric)
       (receive (Ext := Demo.fabric)
          (draw_update (JStr "r1") (JObject (Demo.stroke 3))) Demo.drawn))
  = redoStack Demo.drawn ++ [(nextRef Demo.drawn + 0)%nat].
Proof.
  exact (proj1 (proj2 (undo_after_remote_draw (Ext := Demo.fabric)
                         (JStr "r1") (JObject (Demo.stroke 3)) []
                         (Demo.stroke 3) Demo.drawn eq_refl eq_refl))).
Defined.

(** X12 with the stricter stand-in: a rectangle, an entry of a type fabric
    does not know, and a circle are stored; only the rectangle is loaded. *)
Lemma stored_drawings_fill_history_witness :
  history
    (loadExistingDrawings (Ext := Scenes.strict_fabric)
       [Scenes.stored_rect; Scenes.stored_unknown; Scenes.stored_circle]
       Demo.board)
  = [0%nat].
Proof.
  destruct (stored_drawings_fill_history (Ext := Scenes.strict_fabric)
              [Scenes.stored_rect] [Scenes.stored_circle]
              Scenes.stored_unknown Demo.board)
    as (Hh & _ & _ & _ & _ & Hstop).
  { repeat constructor. intros _. vm_compute. eauto. }
  exact (eq_trans (f_equal history (Hstop eq_refl eq_refl)) Hh).
Defined.

(** X14 on the demo board: a red brush of size 5, and a drag up and to the
    left. *)
Lemma shapes_take_the_brush_witness :
  ∃ wbr wbc,
    draw (Ext := Demo.fabric) (DrawRect (10, 10)%Q [(5, 7)%Q])
      (setBrushSize (JNum 5) (setColor (JStr "#ff0000") Demo.board))
    = Some wbr
    ∧ draw (Ext := Demo.fabric) (DrawCircle (10, 10)%Q [(5, 7)%Q])
        (setBrushSize (JNum 5) (setColor (JStr "#ff0000") Demo.board))
      = Some wbc
    ∧ deref (nextRef Demo.board) wbr !! "stroke" = Some (JStr "#ff0000")
    ∧ deref (nextRef Demo.board) wbc !! "strokeWidth" = Some (JNum 5).
Proof.
  destruct (shapes_take_the_brush (Ext := Demo.fabric) (JStr "#ff0000")
              (JNum 5) (10, 10)%Q [(5, 7)%Q] Demo.board _
              (or_introl eq_refl))
    as (wbr & wbc & Hr & Hc & Hprops & _).
  exists wbr, wbc. split; [exact Hr|]. split; [exact Hc|]. split.
  - exact (proj1 (Hprops wbr (or_introl eq_refl))).
  - exact (proj1 (proj2 (Hprops wbc (or_intror eq_refl)))).
Defined.

(** X17 on the demo's session: after the draw tool was selected nothing but
    [draw] events leaves the whiteboard. *)
Lemma draw_tool_ends_cursor_sharing_witness :
  (Tools.Throttle ∉ Tools.mouse_move Scenes.session_end)
  ∧ ∃ evs,
      SocketManager.sent (socket (Tools.board Scenes.session_end))
      = SocketManager.sent (socket (Tools.board Scenes.studio)) ++ evs
      ∧ Forall (fun ev => fst ev = "draw") evs.
Proof.
  apply (draw_tool_ends_cursor_sharing (Ext := Demo.fabric) Scenes.studio
           Scenes.session_end Scenes.session).
  vm_compute. reflexivity.
Defined.


(** X19 in the demo's studio with the rectangle tool selected. *)
Lemma cursor_sharing_survives_shape_tools_witness :
  ∃ ui',
    Tools.handle (Ext := Demo.fabric) (Tools.MouseMove (Scenes.at_ms 100 5 5))
      (foldl (fun u m => Tools.setMode m u) Scenes.studio [Tools.RectTool])
    = Some ui'
    ∧ SocketManager.sent (socket (Tools.board ui'))
      = SocketManager.sent
          (socket
             (on_mouse_move 100 (5, 5)%Q
                (Tools.board
                   (foldl (fun u m => Tools.setMode m u) Scenes.studio
                      [Tools.RectTool])))).
Proof.
  apply (cursor_sharing_survives_shape_tools (Ext := Demo.fabric) Demo.ann
           "r1" 1000 800 840 [Tools.RectTool] (Scenes.at_ms 100 5 5)).
  repeat constructor; discriminate.
Defined.
